(** * Recording, synthesis and rendering pipeline of the QA test generator

    A shallow embedding of the TypeScript services
    - [RecordingService]      (session controller and injected capture script),
    - [TestCaseGenerator]     (parser of the completion text),
    - [FileDownloadService]   (format renderer and file names),
    together with the properties the specification states about them.

    Conventions of the embedding.
    - A JavaScript string is a [string]: each [ascii] stands for one UTF-16
      code unit in the range 0..255.  The character classes of the regular
      expressions ([\s], [\d], [\w]), [trim] and [toLowerCase] are the
      ECMAScript ones restricted to that range.
    - Objects that the code shares by reference (sessions, windows) live in a
      store and are named by their index in it.
    - Clock readings ([Date.now()], [new Date().toISOString()]) and the answer
      of [window.open] are explicit arguments of the operation that asks for
      them.
    - [console.log] is the only effect of the persistence stubs; it is kept as
      a trace of log entries.
    - Each call of the service runs to its end before the next one starts:
      the [async] methods are modelled as atomic state transformers.
    - The elements the capture script reads are HTML and SVG elements with
      their own DOM properties.  An exception that a listener of the script
      does not catch ends that listener: what it assigned before stays
      assigned, and nothing is posted. *)

From Stdlib Require Import String Ascii List NArith Bool Lia DecimalString
  DecimalNat.
From stdpp Require Import base list.
Import ListNotations.

Local Open Scope string_scope.
Local Open Scope list_scope.
Local Open Scope nat_scope.

(** ** JavaScript strings *)

Module Js.

(** Characters that cannot be written inside a literal. *)
Definition dq : string := String (ascii_of_nat 34) EmptyString.
Definition nl : string := String (ascii_of_nat 10) EmptyString.

Definition code (c : ascii) : nat := nat_of_ascii c.

Definition between (lo hi : nat) (c : ascii) : bool :=
  (lo <=? code c) && (code c <=? hi).

(** [\s] and the characters removed by [trim]: TAB, LF, VT, FF, CR, SP and
    NBSP (the white space and line terminators below 256). *)
Definition is_space (c : ascii) : bool :=
  between 9 13 c || (code c =? 32) || (code c =? 160).

(** [\d] *)
Definition is_digit (c : ascii) : bool := between 48 57 c.

(** [[A-Z]] and [[a-z]] *)
Definition is_upper (c : ascii) : bool := between 65 90 c.
Definition is_lower (c : ascii) : bool := between 97 122 c.

(** [\w] is [[A-Za-z0-9_]]. *)
Definition is_word (c : ascii) : bool :=
  is_upper c || is_lower c || is_digit c || (code c =? 95).

(** [String.prototype.toLowerCase], one code unit at a time: A-Z and the
    Latin-1 capitals U+00C0..U+00DE (U+00D7, the multiplication sign, is not
    a letter) move up by 32. *)
Definition lower_char (c : ascii) : ascii :=
  if is_upper c || (between 192 222 c && negb (code c =? 215))
  then ascii_of_nat (code c + 32) else c.

(** [toUpperCase] of a single character matched by [\w] or [[A-Z]]. *)
Definition upper_char (c : ascii) : ascii :=
  if is_lower c then ascii_of_nat (code c - 32) else c.

Fixpoint map (f : ascii -> ascii) (s : string) : string :=
  match s with
  | EmptyString => EmptyString
  | String c s' => String (f c) (map f s')
  end.

Definition toLowerCase (s : string) : string := map lower_char s.

Fixpoint filter (p : ascii -> bool) (s : string) : string :=
  match s with
  | EmptyString => EmptyString
  | String c s' => if p c then String c (filter p s') else filter p s'
  end.

Fixpoint drop (n : nat) (s : string) : string :=
  match n, s with
  | S k, String _ s' => drop k s'
  | _, _ => s
  end.

(** [s.startsWith(p)] *)
Definition startsWith (p s : string) : bool := String.prefix p s.

(** [s.includes(needle)] *)
Fixpoint includes (needle s : string) : bool :=
  startsWith needle s ||
  match s with
  | EmptyString => false
  | String _ s' => includes needle s'
  end.

Definition is_empty (s : string) : bool :=
  match s with EmptyString => true | _ => false end.

(** Truthiness of a string value: [if (s)], [s || d]. *)
Definition truthy (s : string) : bool := negb (is_empty s).
Definition or_else (s d : string) : string := if truthy s then s else d.

Fixpoint trimStart (s : string) : string :=
  match s with
  | EmptyString => EmptyString
  | String c s' => if is_space c then trimStart s' else s
  end.

Fixpoint trimEnd (s : string) : string :=
  match s with
  | EmptyString => EmptyString
  | String c s' =>
      let t := trimEnd s' in
      if is_space c && is_empty t then EmptyString else String c t
  end.

Definition trim (s : string) : string := trimEnd (trimStart s).

(** [s.split(sep)] for a one-character separator: the pieces between the
    occurrences of [sep]; never an empty list. *)
Fixpoint split (sep : ascii) (s : string) : list string :=
  match s with
  | EmptyString => [EmptyString]
  | String c s' =>
      if Ascii.eqb c sep then EmptyString :: split sep s'
      else match split sep s' with
           | piece :: rest => String c piece :: rest
           | [] => [String c EmptyString]
           end
  end.

(** [pieces.join(sep)] *)
Definition join (sep : string) (pieces : list string) : string :=
  String.concat sep pieces.

(** Concatenation of the pieces of a template literal. *)
Definition cat (pieces : list string) : string := String.concat "" pieces.

(** [s.replace(/\s+/g, r)]: every maximal run of white space becomes [r]. *)
Fixpoint replace_ws_from (in_run : bool) (r s : string) : string :=
  match s with
  | EmptyString => EmptyString
  | String c s' =>
      if is_space c
      then (if in_run then replace_ws_from true r s'
            else (r ++ replace_ws_from true r s')%string)
      else String c (replace_ws_from false r s')
  end.

Definition replace_ws (r s : string) : string := replace_ws_from false r s.

(** Decimal rendering of a non-negative integer in a template literal. *)
Definition of_N (n : N) : string := NilEmpty.string_of_uint (N.to_uint n).
Definition of_nat (n : nat) : string := NilEmpty.string_of_uint (Nat.to_uint n).

End Js.

(** ** Data model (the shared type declarations) *)

Inductive SessionStatus := recording | stopped | processing | completed.

Inductive InteractionType := click | input | scroll | navigation | hover.

Module Interaction.
Record t := mk {
  id : string;
  type : InteractionType;
  element : string;
  selector : string;
  value : option string;
  timestamp : string;
  screenshot : option string
}.
End Interaction.

Module ApiCall.
Record t := mk {
  id : string;
  method : string;
  url : string;
  headers : list (string * string);
  body : option string;
  response : option string;
  status : N;
  timestamp : string
}.
End ApiCall.

Module TestStep.
Record t := mk {
  id : string;
  action : string;
  element : string;
  value : option string;
  expected : option string
}.
End TestStep.

Module TestCase.
(** [format] is declared as the union of ['pytest'], ['selenium_bdd'] and
    ['gherkin']; the services receive it as a string and switch on it with
    a [default] branch, so it is kept as a string here. *)
Record t := mk {
  id : string;
  sessionId : string;
  title : string;
  description : string;
  steps : list TestStep.t;
  format : string;
  content : string;
  createdAt : string
}.
End TestCase.

Module RecordingSession.
Record t := mk {
  id : string;
  userId : string;
  url : string;
  status : SessionStatus;
  startTime : string;
  endTime : option string;
  interactions : list Interaction.t;
  apiCalls : list ApiCall.t;
  testCases : option (list TestCase.t)
}.

Definition set_status (st : SessionStatus) (s : t) : t :=
  mk (id s) (userId s) (url s) st (startTime s) (endTime s)
     (interactions s) (apiCalls s) (testCases s).

Definition set_endTime (e : string) (s : t) : t :=
  mk (id s) (userId s) (url s) (status s) (startTime s) (Some e)
     (interactions s) (apiCalls s) (testCases s).

(** [s.interactions.push(i)] *)
Definition push_interaction (i : Interaction.t) (s : t) : t :=
  mk (id s) (userId s) (url s) (status s) (startTime s) (endTime s)
     (interactions s ++ [i]) (apiCalls s) (testCases s).

(** [s.apiCalls.push(a)] *)
Definition push_apiCall (a : ApiCall.t) (s : t) : t :=
  mk (id s) (userId s) (url s) (status s) (startTime s) (endTime s)
     (interactions s) (apiCalls s ++ [a]) (testCases s).
End RecordingSession.

(** ** The session controller: [RecordingService] *)

Module RecordingService.

Import RecordingSession.

(** The capture surface: all the controller reads of it is [closed]. *)
Record Window := { closed : bool }.

(** What the persistence stubs print. *)
Inductive LogEntry :=
| SessionSaved (s : RecordingSession.t)
| InteractionRecorded (i : Interaction.t)
| ApiCallRecorded (a : ApiCall.t).

(** The messages of the capture agent, by their [type] field. *)
Inductive Message :=
| INTERACTION_RECORDED (data : Interaction.t)
| API_CALL_RECORDED (data : ApiCall.t)
| OtherMessage (type : string).

(** The singleton service with the objects it refers to.  [sessions] and
    [windows] are the stores; [currentSession] and [recordingWindow] hold
    references into them ([None] is [null]).  [listeners] counts the
    [message] listeners and [intervals] the [checkWindow] timers that
    [monitorWindow] has registered. *)
Record State := mkState {
  sessions : list RecordingSession.t;
  windows : list Window;
  currentSession : option nat;
  recordingWindow : option nat;
  isRecording : bool;
  listeners : nat;
  intervals : nat;
  console : list LogEntry
}.

(** The service as [getInstance] first builds it. *)
Definition initial : State :=
  mkState [] [] None None false 0 0 [].

Inductive Result (A : Type) :=
| Ok (a : A)
| Throw (message : string).
Arguments Ok {A} a.
Arguments Throw {A} message.

Definition with_sessions (f : list RecordingSession.t -> list RecordingSession.t)
    (st : State) : State :=
  mkState (f (sessions st)) (windows st) (currentSession st)
          (recordingWindow st) (isRecording st) (listeners st)
          (intervals st) (console st).

Definition with_isRecording (b : bool) (st : State) : State :=
  mkState (sessions st) (windows st) (currentSession st)
          (recordingWindow st) b (listeners st) (intervals st) (console st).

Definition log (e : LogEntry) (st : State) : State :=
  mkState (sessions st) (windows st) (currentSession st)
          (recordingWindow st) (isRecording st) (listeners st)
          (intervals st) (console st ++ [e]).

Definition is_null {A} (o : option A) : bool :=
  match o with None => true | Some _ => false end.

(** The object [this.currentSession] refers to. *)
Definition current (st : State) : option RecordingSession.t :=
  match currentSession st with
  | Some r => sessions st !! r
  | None => None
  end.

(** An assignment to a field of [this.currentSession]. *)
Definition update_current (f : RecordingSession.t -> RecordingSession.t)
    (st : State) : State :=
  match currentSession st with
  | Some r => with_sessions (alter f r) st
  | None => st
  end.

(** [saveSessionToDatabase(this.currentSession)]: prints the session. *)
Definition saveSessionToDatabase (st : State) : State :=
  match current st with
  | Some s => log (SessionSaved s) st
  | None => st
  end.

(** [openRecordingWindow]: [window.open] answers a new window
    ([opens = true]) or [null]; in the first case the capture script is
    injected and [monitorWindow] registers one [message] listener and
    one [checkWindow] timer. *)
Definition openRecordingWindow (opens : bool) (st : State) : State :=
  if opens
  then mkState (sessions st) (windows st ++ [ {| closed := false |} ])
               (currentSession st) (Some (length (windows st)))
               (isRecording st) (S (listeners st)) (S (intervals st))
               (console st)
  else mkState (sessions st) (windows st) (currentSession st) None
               (isRecording st) (listeners st) (intervals st) (console st).

(** [startRecording(url, userId)]; [now] is [Date.now()] and [iso] is
    [new Date().toISOString()]. *)
Definition startRecording (now : N) (iso : string) (opens : bool)
    (url userId : string) (st : State) : Result nat * State :=
  if isRecording st then (Throw "Recording already in progress", st)
  else
    let sessionId := ("session_" ++ Js.of_N now)%string in
    let session :=
      RecordingSession.mk sessionId userId url recording iso None [] [] None in
    let r := length (sessions st) in
    let st1 := mkState (sessions st ++ [session]) (windows st) (Some r)
                       (recordingWindow st) (isRecording st) (listeners st)
                       (intervals st) (console st) in
    let st2 := saveSessionToDatabase st1 in
    let st3 := openRecordingWindow opens st2 in
    (Ok r, with_isRecording true st3).

(** [recordInteraction(interaction)] *)
Definition recordInteraction (i : Interaction.t) (st : State) : State :=
  match currentSession st with
  | None => st
  | Some _ => log (InteractionRecorded i) (update_current (push_interaction i) st)
  end.

(** [recordApiCall(apiCall)] *)
Definition recordApiCall (a : ApiCall.t) (st : State) : State :=
  match currentSession st with
  | None => st
  | Some _ => log (ApiCallRecorded a) (update_current (push_apiCall a) st)
  end.

(** One [message] listener of [monitorWindow]. *)
Definition onMessage (m : Message) (st : State) : State :=
  match currentSession st with
  | None => st
  | Some _ =>
      if negb (isRecording st) then st
      else match m with
           | INTERACTION_RECORDED data => recordInteraction data st
           | API_CALL_RECORDED data => recordApiCall data st
           | OtherMessage _ => st
           end
  end.

(** A message posted to the page runs every registered listener. *)
Definition dispatchMessage (m : Message) (st : State) : State :=
  Nat.iter (listeners st) (onMessage m) st.

(** [this.recordingWindow.close()] when the window is there and open,
    then [this.recordingWindow = null]. *)
Definition closeRecordingWindow (st : State) : State :=
  let ws := match recordingWindow st with
            | Some w =>
                alter (fun x => if closed x then x else {| closed := true |})
                      w (windows st)
            | None => windows st
            end in
  mkState (sessions st) ws (currentSession st) None (isRecording st)
          (listeners st) (intervals st) (console st).

(** [stopRecording()]; [iso] is [new Date().toISOString()].  The result
    is the reference held in [currentSession], or [None] for [null]. *)
Definition stopRecording (iso : string) (st : State) : option nat * State :=
  if negb (isRecording st) || is_null (currentSession st)
  then (None, st)
  else
    let st1 := with_isRecording false st in
    let st2 := update_current (set_status processing) st1 in
    let st3 := update_current (set_endTime iso) st2 in
    let st4 := closeRecordingWindow st3 in
    let st5 := saveSessionToDatabase st4 in
    (currentSession st5, st5).

(** [completeSession(sessionId)] *)
Definition completeSession (sessionId : string) (st : State) : State :=
  match current st with
  | Some s =>
      if String.eqb (RecordingSession.id s) sessionId
      then
        let st1 := update_current (set_status completed) st in
        let st2 := saveSessionToDatabase st1 in
        mkState (sessions st2) (windows st2) None (recordingWindow st2)
                (isRecording st2) (listeners st2) (intervals st2) (console st2)
      else st
  | None => st
  end.

(** [pauseRecording()] *)
Definition pauseRecording (st : State) : State :=
  match currentSession st with
  | Some _ => with_isRecording false (update_current (set_status stopped) st)
  | None => st
  end.

(** [resumeRecording()] *)
Definition resumeRecording (st : State) : State :=
  match currentSession st with
  | Some _ => with_isRecording true (update_current (set_status recording) st)
  | None => st
  end.

(** [getCurrentSession()] *)
Definition getCurrentSession (st : State) : option nat := currentSession st.

(** One firing of a [checkWindow] timer, when one is registered: if the
    held window is closed the timer clears itself and calls
    [stopRecording]. *)
Definition checkWindow (iso : string) (st : State) : State :=
  match intervals st with
  | O => st
  | S k =>
      match recordingWindow st with
      | Some w =>
          match windows st !! w with
          | Some {| closed := true |} =>
              snd (stopRecording iso
                     (mkState (sessions st) (windows st) (currentSession st)
                              (recordingWindow st) (isRecording st)
                              (listeners st) k (console st)))
          | _ => st
          end
      | None => st
      end
  end.

(** The user closes the capture surface. *)
Definition userClosesWindow (st : State) : State :=
  match recordingWindow st with
  | Some w =>
      mkState (sessions st) (alter (fun _ => {| closed := true |}) w (windows st))
              (currentSession st) (recordingWindow st) (isRecording st)
              (listeners st) (intervals st) (console st)
  | None => st
  end.

(** The calls the controller can receive, and runs of them. *)
Inductive Op :=
| OpStart (now : N) (iso : string) (opens : bool) (url userId : string)
| OpStop (iso : string)
| OpPause
| OpResume
| OpComplete (sessionId : string)
| OpRecordInteraction (i : Interaction.t)
| OpRecordApiCall (a : ApiCall.t)
| OpMessage (m : Message)
| OpCheckWindow (iso : string)
| OpUserClosesWindow.

Definition step (op : Op) (st : State) : State :=
  match op with
  | OpStart now iso opens url userId =>
      snd (startRecording now iso opens url userId st)
  | OpStop iso => snd (stopRecording iso st)
  | OpPause => pauseRecording st
  | OpResume => resumeRecording st
  | OpComplete sessionId => completeSession sessionId st
  | OpRecordInteraction i => recordInteraction i st
  | OpRecordApiCall a => recordApiCall a st
  | OpMessage m => dispatchMessage m st
  | OpCheckWindow iso => checkWindow iso st
  | OpUserClosesWindow => userClosesWindow st
  end.

Definition run (ops : list Op) (st : State) : State :=
  fold_left (fun s op => step op s) ops st.

(** The lifecycle operations, as opposed to record ingestion. *)
Definition lifecycle (op : Op) : bool :=
  match op with
  | OpRecordInteraction _ | OpRecordApiCall _ | OpMessage _ => false
  | _ => true
  end.

End RecordingService.

(** ** The injected capture script: [getSelector] *)

Module CaptureScript.

(** The [className] property of an element.  On an HTML element it is a
    string: the class attribute, or the empty string when there is none.
    On an SVG element it is an [SVGAnimatedString] object, which is truthy
    whatever the attribute, holds the attribute as its [baseVal] and has
    no [split] method. *)
Inductive ClassName :=
| ClassString (s : string)
| ClassAnimated (baseVal : string).

(** A DOM node as [getSelector] reads it.  [id] is the reflected
    attribute: the empty string when the attribute is absent.  [Detached]
    is a node whose [parentNode] is [null] (the document, or the root of a
    detached tree). *)
Inductive Node :=
| Detached (tagName id : string) (className : ClassName)
| Child (tagName id : string) (className : ClassName) (parent : Node).

Definition tagName (e : Node) : string :=
  match e with Detached t _ _ | Child t _ _ _ => t end.
Definition id (e : Node) : string :=
  match e with Detached _ i _ | Child _ i _ _ => i end.
Definition className (e : Node) : ClassName :=
  match e with Detached _ _ c | Child _ _ c _ => c end.

(** How a call of [getSelector] ends: it returns a selector, or it throws
    the [TypeError] of [element.className.split(' ')] on a [className]
    that is not a string. *)
Inductive Outcome :=
| Returns (selector : string)
| ThrowsTypeError.

(** [s.split(' ')[0]] *)
Definition first_token (s : string) : string :=
  match Js.split " " s with
  | t :: _ => t
  | [] => EmptyString
  end.

(** The [while (element.parentNode)] loop; [unshift] puts each ancestor
    in front of what was collected before it.  [None] when the loop
    throws. *)
Fixpoint path (element : Node) : option (list string) :=
  match element with
  | Detached _ _ _ => Some []
  | Child tag i cls parent =>
      let selector := Js.toLowerCase tag in
      if Js.truthy i then Some [(selector ++ "#" ++ i)%string]
      else
        match cls with
        | ClassAnimated _ => None
        | ClassString c =>
            let selector :=
              if Js.truthy c then (selector ++ "." ++ first_token c)%string
              else selector in
            match path parent with
            | Some above => Some (above ++ [selector])
            | None => None
            end
        end
  end.

Definition getSelector (element : Node) : Outcome :=
  if Js.truthy (id element) then Returns ("#" ++ id element)
  else
    match className element with
    | ClassAnimated _ => ThrowsTypeError
    | ClassString c =>
        if Js.truthy c then Returns ("." ++ first_token c)
        else match path element with
             | Some selectors => Returns (Js.join " > " selectors)
             | None => ThrowsTypeError
             end
    end.

End CaptureScript.

(** ** The response parser: [TestCaseGenerator] *)

Module TestCaseGenerator.

(** Number of leading characters of [s] satisfying [p]. *)
Fixpoint span (p : ascii -> bool) (s : string) : nat :=
  match s with
  | String c s' => if p c then S (span p s') else 0
  | EmptyString => 0
  end.

(** [/\d+X/] anchored at the start of [s], for a one-character [X]: the
    length of the match.  The digits are taken greedily; giving some back
    cannot help, since the character after a shorter run is a digit. *)
Definition digits_then (x : string) (s : string) : option nat :=
  let n := span Js.is_digit s in
  if (0 <? n) && Js.startsWith x (Js.drop n s) then Some (n + 1) else None.

(** [/Test Case \d+:|Scenario:|Feature:/] anchored at the start of [s]:
    the length of the match, alternatives tried from left to right. *)
Definition match_marker (s : string) : option nat :=
  match (if Js.startsWith "Test Case " s
         then digits_then ":" (Js.drop 10 s) else None) with
  | Some n => Some (10 + n)
  | None =>
      if Js.startsWith "Scenario:" s then Some 9
      else if Js.startsWith "Feature:" s then Some 8
      else None
  end.

(** [s.split(/Test Case \d+:|Scenario:|Feature:/)].  The head of the
    result is the piece being read; [skip] counts the characters of a
    marker still to be passed over. *)
Fixpoint split_markers_from (skip : nat) (s : string) : list string :=
  match s with
  | EmptyString => [EmptyString]
  | String c s' =>
      match skip with
      | S k => split_markers_from k s'
      | O =>
          match match_marker s with
          | Some (S k) => EmptyString :: split_markers_from k s'
          | _ =>
              match split_markers_from 0 s' with
              | piece :: rest => String c piece :: rest
              | [] => [String c EmptyString]
              end
          end
      end
  end.

Definition split_markers (s : string) : list string :=
  split_markers_from 0 s.

(** [response.split(...).filter(s => s.trim())] *)
Definition sections (response : string) : list string :=
  List.filter (fun s => Js.truthy (Js.trim s)) (split_markers response).

(** [line.replace(/description:?/i, '')]: the first match is removed. *)
Fixpoint remove_description (s : string) : string :=
  if Js.startsWith "description" (Js.toLowerCase s)
  then let rest := Js.drop 11 s in
       if Js.startsWith ":" rest then Js.drop 1 rest else rest
  else match s with
       | EmptyString => EmptyString
       | String c s' => String c (remove_description s')
       end.

Definition extractDescription (content : string) : string :=
  let lines := Js.split (ascii_of_nat 10) content in
  let descriptionLine :=
    List.find (fun line =>
                 Js.includes "description" (Js.toLowerCase line)
                 || Js.includes "purpose" (Js.toLowerCase line)) lines in
  match descriptionLine with
  | Some line =>
      Js.or_else (Js.trim (remove_description line)) "AI-generated test case"
  | None => "AI-generated test case"
  end.

(** [trimmed.match(/^\d+\.|\*|-|Given|When|Then|And/)] *)
Definition step_marker (trimmed : string) : bool :=
  bool_decide (is_Some (digits_then "." trimmed))
  || Js.includes "*" trimmed
  || Js.includes "-" trimmed
  || Js.includes "Given" trimmed
  || Js.includes "When" trimmed
  || Js.includes "Then" trimmed
  || Js.includes "And" trimmed.

(** The [forEach] of [extractSteps], from line number [index] on. *)
Fixpoint steps_from (index : nat) (lines : list string) : list TestStep.t :=
  match lines with
  | [] => []
  | line :: rest =>
      let trimmed := Js.trim line in
      if step_marker trimmed
      then TestStep.mk ("step_" ++ Js.of_nat index) trimmed "" None (Some "")
           :: steps_from (S index) rest
      else steps_from (S index) rest
  end.

Definition extractSteps (content : string) : list TestStep.t :=
  steps_from 0 (Js.split (ascii_of_nat 10) content).

(** The test case built from the [index]-th section; [now] and [iso] are
    the clock readings taken while it is built. *)
Definition section_case (now : N) (iso : string) (sessionId format : string)
    (index : nat) (section : string) : TestCase.t :=
  let lines := Js.split (ascii_of_nat 10) (Js.trim section) in
  let title :=
    Js.or_else (Js.trim (hd EmptyString lines))
               ("Test Case " ++ Js.of_nat (index + 1)) in
  TestCase.mk
    ("test_" ++ sessionId ++ "_" ++ Js.of_N now ++ "_" ++ Js.of_nat index)
    sessionId title (extractDescription section) (extractSteps section)
    format (Js.trim section) iso.

(** The [forEach] over the sections, from position [index] on. *)
Fixpoint cases_from (now : nat -> N) (iso : nat -> string)
    (sessionId format : string) (index : nat) (secs : list string)
    : list TestCase.t :=
  match secs with
  | [] => []
  | section :: rest =>
      if Js.truthy (Js.trim section)
      then section_case (now index) (iso index) sessionId format index section
           :: cases_from now iso sessionId format (S index) rest
      else cases_from now iso sessionId format (S index) rest
  end.

(** The default test case pushed when no section was parsed. *)
Definition fallback (now : N) (iso : string)
    (response sessionId format : string) : TestCase.t :=
  TestCase.mk ("test_" ++ sessionId ++ "_" ++ Js.of_N now) sessionId
    "Generated Test Case"
    "AI-generated test case based on recorded interactions"
    [] format response iso.

(** [parseAIResponse(response, sessionId, format)].  [now k] and [iso k]
    are the clock readings while the [k]-th section is handled; the
    default case reads the clock once more ([now_end], [iso_end]).  No
    call in the body throws on a string, so the [catch] branch, which
    returns the same default case, is never taken. *)
Definition parseAIResponse (now : nat -> N) (iso : nat -> string)
    (now_end : N) (iso_end : string)
    (response sessionId format : string) : list TestCase.t :=
  let testCases := cases_from now iso sessionId format 0 (sections response) in
  if length testCases =? 0
  then testCases ++ [fallback now_end iso_end response sessionId format]
  else testCases.

End TestCaseGenerator.

(** ** The format renderer: [FileDownloadService] *)

Module FileDownloadService.

Import TestCase.
Import Js (cat, nl, dq).

(** [str.replace(/(?:^\w|[A-Z]|\b\w)/g, w => w.toUpperCase())]: a
    character is matched when it is a word character at the start of the
    string, a capital letter, or a word character at a word boundary;
    [prev] tells whether the previous character is a word character. *)
Fixpoint capitalize_from (start prev : bool) (s : string) : string :=
  match s with
  | EmptyString => EmptyString
  | String c s' =>
      let boundary := xorb prev (Js.is_word c) in
      let matched :=
        (start && Js.is_word c) || Js.is_upper c
        || (boundary && Js.is_word c) in
      String (if matched then Js.upper_char c else c)
             (capitalize_from false (Js.is_word c) s')
  end.

Definition toPascalCase (str : string) : string :=
  Js.replace_ws "" (capitalize_from true false str).

(** [s.replace(/[^a-z0-9_]/g, '')] *)
Definition strip (s : string) : string :=
  Js.filter (fun c => Js.is_lower c || Js.is_digit c || (Js.code c =? 95)) s.

Definition toSnakeCase (str : string) : string :=
  strip (Js.replace_ws "_" (Js.toLowerCase str)).

(** [/https?:\/\/[^\s]+/] anchored at the start of [s]: the match. *)
Definition url_at (s : string) : option string :=
  let try (scheme : string) :=
    if Js.startsWith scheme s
    then let n := TestCaseGenerator.span (fun c => negb (Js.is_space c))
                    (Js.drop (String.length scheme) s) in
         if 0 <? n
         then Some (String.substring 0 (String.length scheme + n) s)
         else None
    else None in
  match try "https://" with
  | Some m => Some m
  | None => try "http://"
  end.

(** The leftmost match of the URL pattern in [s]. *)
Fixpoint first_url (s : string) : option string :=
  match url_at s with
  | Some m => Some m
  | None =>
      match s with
      | EmptyString => None
      | String _ s' => first_url s'
      end
  end.

Definition extractUrlFromContent (content : string) : string :=
  match first_url content with
  | Some m => m
  | None => "https://example.com"
  end.

(** [step.value || d] *)
Definition value_or (step : TestStep.t) (d : string) : string :=
  match TestStep.value step with
  | Some v => Js.or_else v d
  | None => d
  end.

Definition generatePytestSteps (tc : TestCase.t) : string :=
  let steps :=
    Js.join nl
      (List.map (fun step =>
                   cat [ "            # "; TestStep.action step; nl;
                        "            time.sleep(0.5)  # Small delay for stability" ])
                (steps tc)) in
  cat [ "# Navigate to the application"; nl;
        "            driver.get("; dq; extractUrlFromContent (content tc); dq; ")"; nl;
        "            "; nl;
        "            # Wait for page to load"; nl;
        "            self.wait_for_element(driver, By.TAG_NAME, "; dq; "body"; dq; ")"; nl;
        "            "; nl;
        "            "; steps; nl;
        "            "; nl;
        "            # Add assertions"; nl;
        "            assert driver.title is not None, "; dq; "Page title should not be None"; dq; nl;
        "            print("; dq; "Test completed successfully"; dq; ")" ].

(** The callback of [testCase.steps.map] in [generateGherkinSteps]. *)
Definition gherkin_clause (step : TestStep.t) : string :=
  let action := Js.toLowerCase (TestStep.action step) in
  if Js.includes "click" action
  then cat [ "    When I click on "; dq; TestStep.element step; dq ]
  else if Js.includes "input" action || Js.includes "type" action
  then cat [ "    When I enter "; dq; value_or step "test data"; dq; " in "; dq; TestStep.element step; dq ]
  else if Js.includes "navigate" action
  then cat [ "    Given I navigate to "; dq; value_or step "the page"; dq ]
  else cat [ "    And I "; Js.toLowerCase (TestStep.action step) ].

Definition generateGherkinSteps (tc : TestCase.t) : string :=
  let steps := Js.join nl (List.map gherkin_clause (steps tc)) in
  cat [ "Given I am on the application page"; nl;
        "    "; steps; nl;
        "    Then I should see the expected results"; nl;
        "    And the page should be displayed correctly" ].

Definition generateJavaStepDefinitions (tc : TestCase.t) : string :=
  cat [ nl;
        "    @Given("; dq; "the browser is open"; dq; ")"; nl;
        "    public void the_browser_is_open() {"; nl;
        "        // Browser setup is handled in @Before"; nl;
        "        Assert.assertNotNull("; dq; "Driver should be initialized"; dq; ", driver);"; nl;
        "    }"; nl;
        "    "; nl;
        "    @Given("; dq; "I navigate to the application"; dq; ")"; nl;
        "    public void i_navigate_to_the_application() {"; nl;
        "        driver.get("; dq; extractUrlFromContent (content tc); dq; ");"; nl;
        "    }"; nl;
        "    "; nl;
        "    @When("; dq; "I click on {string}"; dq; ")"; nl;
        "    public void i_click_on(String element) {"; nl;
        "        // Implementation for clicking elements"; nl;
        "        // Use page object methods here"; nl;
        "    }"; nl;
        "    "; nl;
        "    @When("; dq; "I enter {string} in {string}"; dq; ")"; nl;
        "    public void i_enter_in(String text, String element) {"; nl;
        "        // Implementation for entering text"; nl;
        "        // Use page object methods here"; nl;
        "    }"; nl;
        "    "; nl;
        "    @Then("; dq; "I should see the expected results"; dq; ")"; nl;
        "    public void i_should_see_the_expected_results() {"; nl;
        "        // Add assertions here"; nl;
        "        Assert.assertTrue("; dq; "Expected results should be visible"; dq; ", true);"; nl;
        "    }"; nl ].

(** [iso] is the reading of [new Date().toISOString()] in the header. *)
Definition generatePytestFile (iso : string) (tc : TestCase.t) : string :=
  let className := toPascalCase (title tc) in
  let methodName := toSnakeCase (title tc) in
  cat [ dq; dq; dq; nl;
        title tc; nl;
        description tc; nl;
        nl;
        "Generated on: "; iso; nl;
        dq; dq; dq; nl;
        nl;
        "import pytest"; nl;
        "import time"; nl;
        "from selenium import webdriver"; nl;
        "from selenium.webdriver.common.by import By"; nl;
        "from selenium.webdriver.support.ui import WebDriverWait"; nl;
        "from selenium.webdriver.support import expected_conditions as EC"; nl;
        "from selenium.webdriver.common.action_chains import ActionChains"; nl;
        "from selenium.webdriver.chrome.options import Options"; nl;
        nl;
        nl;
        "class Test"; className; ":"; nl;
        "    "; dq; dq; dq; "Test class for "; title tc; dq; dq; dq; nl;
        "    "; nl;
        "    @pytest.fixture(scope="; dq; "function"; dq; ")"; nl;
        "    def driver(self):"; nl;
        "        "; dq; dq; dq; "Setup and teardown for WebDriver"; dq; dq; dq; nl;
        "        options = Options()"; nl;
        "        options.add_argument("; dq; "--headless"; dq; ")  # Remove for debugging"; nl;
        "        options.add_argument("; dq; "--no-sandbox"; dq; ")"; nl;
        "        options.add_argument("; dq; "--disable-dev-shm-usage"; dq; ")"; nl;
        "        "; nl;
        "        driver = webdriver.Chrome(options=options)"; nl;
        "        driver.implicitly_wait(10)"; nl;
        "        driver.maximize_window()"; nl;
        "        "; nl;
        "        yield driver"; nl;
        "        "; nl;
        "        driver.quit()"; nl;
        "    "; nl;
        "    def test_"; methodName; "(self, driver):"; nl;
        "        "; dq; dq; dq; nl;
        "        "; description tc; nl;
        "        "; dq; dq; dq; nl;
        "        try:"; nl;
        "            "; generatePytestSteps tc; nl;
        "            "; nl;
        "        except Exception as e:"; nl;
        "            pytest.fail(f"; dq; "Test failed with error: {str(e)}"; dq; ")"; nl;
        "    "; nl;
        "    def wait_for_element(self, driver, by, value, timeout=10):"; nl;
        "        "; dq; dq; dq; "Helper method to wait for element"; dq; dq; dq; nl;
        "        return WebDriverWait(driver, timeout).until("; nl;
        "            EC.presence_of_element_located((by, value))"; nl;
        "        )"; nl;
        "    "; nl;
        "    def wait_and_click(self, driver, by, value, timeout=10):"; nl;
        "        "; dq; dq; dq; "Helper method to wait and click element"; dq; dq; dq; nl;
        "        element = WebDriverWait(driver, timeout).until("; nl;
        "            EC.element_to_be_clickable((by, value))"; nl;
        "        )"; nl;
        "        element.click()"; nl;
        "        return element"; nl;
        "    "; nl;
        "    def wait_and_send_keys(self, driver, by, value, text, timeout=10):"; nl;
        "        "; dq; dq; dq; "Helper method to wait and send keys to element"; dq; dq; dq; nl;
        "        element = WebDriverWait(driver, timeout).until("; nl;
        "            EC.presence_of_element_located((by, value))"; nl;
        "        )"; nl;
        "        element.clear()"; nl;
        "        element.send_keys(text)"; nl;
        "        return element"; nl;
        nl;
        nl;
        "if __name__ == "; dq; "__main__"; dq; ":"; nl;
        "    pytest.main([__file__])"; nl ].

Definition generateSeleniumBDDFiles (tc : TestCase.t) : string :=
  let featureName := toPascalCase (title tc) in
  cat [ "# Feature File: "; Js.replace_ws "_" (Js.toLowerCase (title tc)); ".feature"; nl;
        nl;
        "Feature: "; title tc; nl;
        "  As a user"; nl;
        "  I want to "; description tc; nl;
        "  So that I can verify the application functionality"; nl;
        nl;
        "  Background:"; nl;
        "    Given the browser is open"; nl;
        "    And I navigate to the application"; nl;
        nl;
        "  Scenario: "; title tc; nl;
        "    "; generateGherkinSteps tc; nl;
        nl;
        "# Step Definitions (Java)"; nl;
        "# File: "; featureName; "Steps.java"; nl;
        nl;
        "package stepDefinitions;"; nl;
        nl;
        "import io.cucumber.java.en.*;"; nl;
        "import org.openqa.selenium.WebDriver;"; nl;
        "import org.openqa.selenium.chrome.ChromeDriver;"; nl;
        "import org.openqa.selenium.support.ui.WebDriverWait;"; nl;
        "import org.junit.Assert;"; nl;
        "import java.time.Duration;"; nl;
        nl;
        "public class "; featureName; "Steps {"; nl;
        "    "; nl;
        "    private WebDriver driver;"; nl;
        "    private WebDriverWait wait;"; nl;
        "    "; nl;
        "    @Before"; nl;
        "    public void setUp() {"; nl;
        "        System.setProperty("; dq; "webdriver.chrome.driver"; dq; ", "; dq; "path/to/chromedriver"; dq; ");"; nl;
        "        driver = new ChromeDriver();"; nl;
        "        wait = new WebDriverWait(driver, Duration.ofSeconds(10));"; nl;
        "        driver.manage().window().maximize();"; nl;
        "    }"; nl;
        "    "; nl;
        "    @After"; nl;
        "    public void tearDown() {"; nl;
        "        if (driver != null) {"; nl;
        "            driver.quit();"; nl;
        "        }"; nl;
        "    }"; nl;
        "    "; nl;
        "    "; generateJavaStepDefinitions tc; nl;
        "}"; nl;
        nl;
        "# Page Object Model"; nl;
        "# File: "; featureName; "Page.java"; nl;
        nl;
        "package pageObjects;"; nl;
        nl;
        "import org.openqa.selenium.WebDriver;"; nl;
        "import org.openqa.selenium.WebElement;"; nl;
        "import org.openqa.selenium.support.FindBy;"; nl;
        "import org.openqa.selenium.support.PageFactory;"; nl;
        nl;
        "public class "; featureName; "Page {"; nl;
        "    "; nl;
        "    private WebDriver driver;"; nl;
        "    "; nl;
        "    public "; featureName; "Page(WebDriver driver) {"; nl;
        "        this.driver = driver;"; nl;
        "        PageFactory.initElements(driver, this);"; nl;
        "    }"; nl;
        "    "; nl;
        "    // Add page elements and methods here"; nl;
        "    "; nl;
        "}"; nl ].

Definition generateGherkinFile (tc : TestCase.t) : string :=
  cat [ "Feature: "; title tc; nl;
        "  "; description tc; nl;
        nl;
        "  Background:"; nl;
        "    Given the user is on the application"; nl;
        "    And the system is ready for testing"; nl;
        nl;
        "  Scenario: "; title tc; nl;
        "    "; generateGherkinSteps tc; nl;
        nl;
        "  Scenario Outline: "; title tc; " with different data"; nl;
        "    "; generateGherkinSteps tc; nl;
        "    "; nl;
        "    Examples:"; nl;
        "      | data1 | data2 | expected |"; nl;
        "      | test1 | val1  | result1  |"; nl;
        "      | test2 | val2  | result2  |"; nl;
        nl;
        "  @smoke @regression"; nl;
        "  Scenario: "; title tc; " - Error Handling"; nl;
        "    Given the user is on the application"; nl;
        "    When an error occurs during the process"; nl;
        "    Then the system should handle the error gracefully"; nl;
        "    And display appropriate error messages"; nl ].

Definition generateFileContent (iso : string) (tc : TestCase.t) : string :=
  if String.eqb (format tc) "pytest" then generatePytestFile iso tc
  else if String.eqb (format tc) "selenium_bdd" then generateSeleniumBDDFiles tc
  else if String.eqb (format tc) "gherkin" then generateGherkinFile tc
  else content tc.

Definition generateFilename (tc : TestCase.t) : string :=
  let baseName := strip (Js.replace_ws "_" (Js.toLowerCase (title tc))) in
  if String.eqb (format tc) "pytest" then cat [ "test_"; baseName; ".py" ]
  else if String.eqb (format tc) "selenium_bdd" then cat [ baseName; ".feature" ]
  else if String.eqb (format tc) "gherkin" then cat [ baseName; ".feature" ]
  else cat [ baseName; ".txt" ].

Definition getMimeType (format : string) : string :=
  if String.eqb format "pytest" then "text/x-python" else "text/plain".

End FileDownloadService.

(** ** The injected capture script: event handlers *)

Module CaptureAgent.

(** The target of an event: the node, with the [textContent] ([None] for
    [null]) and the [value] the handlers read from it. *)
Record Target := mkTarget {
  node : CaptureScript.Node;
  textContent : option string;
  value : string
}.

(** The variables of the script: [interactionCount] and the [currentUrl]
    of the navigation poll. *)
Record State := mkState {
  interactionCount : nat;
  currentUrl : string
}.

(** What the page delivers to the script; [iso] is the reading of
    [new Date().toISOString()], [href] is [window.location.href]. *)
Inductive Event :=
| Click (target : Target) (iso : string)
| Input (target : Target) (iso : string)
| Poll (href : string) (iso : string).

(** ['interaction_' + (++interactionCount)] *)
Definition next_id (st : State) : string :=
  ("interaction_" ++ Js.of_nat (S (interactionCount st)))%string.

(** [e.target.textContent?.substring(0, 100) || ''] *)
Definition click_value (target : Target) : string :=
  match textContent target with
  | Some text => Js.or_else (String.substring 0 100 text) EmptyString
  | None => EmptyString
  end.

(** One event: the interaction posted to the parent window, if any, and
    the variables afterwards.  The fields of the interaction are evaluated
    in the order the listener writes them: [++interactionCount] first,
    [getSelector] after it.  When [getSelector] throws, the listener ends
    there: the count has advanced and nothing is posted. *)
Definition handle (e : Event) (st : State) : option Interaction.t * State :=
  match e with
  | Click target iso =>
      let fresh := next_id st in
      let st' := mkState (S (interactionCount st)) (currentUrl st) in
      match CaptureScript.getSelector (node target) with
      | CaptureScript.Returns selector =>
          (Some (Interaction.mk fresh click
                   (Js.toLowerCase (CaptureScript.tagName (node target)))
                   selector (Some (click_value target)) iso None),
           st')
      | CaptureScript.ThrowsTypeError => (None, st')
      end
  | Input target iso =>
      if String.eqb (CaptureScript.tagName (node target)) "INPUT"
         || String.eqb (CaptureScript.tagName (node target)) "TEXTAREA"
      then
        let fresh := next_id st in
        let st' := mkState (S (interactionCount st)) (currentUrl st) in
        match CaptureScript.getSelector (node target) with
        | CaptureScript.Returns selector =>
            (Some (Interaction.mk fresh input
                     (Js.toLowerCase (CaptureScript.tagName (node target)))
                     selector (Some (value target)) iso None),
             st')
        | CaptureScript.ThrowsTypeError => (None, st')
        end
      else (None, st)
  | Poll href iso =>
      if negb (String.eqb href (currentUrl st))
      then (Some (Interaction.mk (next_id st) navigation "page" "body"
                    (Some href) iso None),
            mkState (S (interactionCount st)) href)
      else (None, st)
  end.


(** The interactions posted for a sequence of events, in order, and the
    variables at the end. *)
Fixpoint handle_all (events : list Event) (st : State)
    : list Interaction.t * State :=
  match events with
  | [] => ([], st)
  | e :: rest =>
      let (posted, st1) := handle e st in
      let (later, st2) := handle_all rest st1 in
      (match posted with Some i => i :: later | None => later end, st2)
  end.

(** The script as injected: nothing counted, the location at load time. *)
Definition loaded (href : string) : State := mkState 0 href.

End CaptureAgent.

(** ** Reference states and predicates used by the statements *)

Module Scenario.

Import RecordingService.

(** The service after [startRecording('https://example.com', 'u1')]. *)
Definition started : State :=
  snd (startRecording 1000 "2024-01-01T00:00:00.000Z" true
         "https://example.com" "u1" initial).

(** ... then [pauseRecording()]. *)
Definition paused : State := pauseRecording started.

(** ... or else [stopRecording()]. *)
Definition stopping : State :=
  snd (stopRecording "2024-01-01T00:05:00.000Z" started).

Definition buy_click : Interaction.t :=
  Interaction.mk "interaction_1" click "button" "#buy" (Some "Buy")
                 "2024-01-01T00:01:00.000Z" None.

Definition qty_input : Interaction.t :=
  Interaction.mk "interaction_2" input "input" "#qty" (Some "42")
                 "2024-01-01T00:01:30.000Z" None.

Definition search_call : ApiCall.t :=
  ApiCall.mk "api_1" "GET" "https://example.com/api/search" [] None None
             200 "2024-01-01T00:02:00.000Z".

End Scenario.

(** The data-model invariant on a session: [endTime] is set exactly when
    the status is [processing] or [completed]. *)
Definition endTime_invariant (s : RecordingSession.t) : Prop :=
  is_Some (RecordingSession.endTime s) <->
  (RecordingSession.status s = processing \/ RecordingSession.status s = completed).

(** A call respects the lifecycle order when [pauseRecording] and
    [resumeRecording] reach a session that is recording or paused, and
    [completeSession] reaches a session that is processing. *)
Definition in_order (op : RecordingService.Op) (st : RecordingService.State) : bool :=
  match op, RecordingService.current st with
  | (RecordingService.OpPause | RecordingService.OpResume), Some s =>
      match RecordingSession.status s with
      | recording | stopped => true
      | _ => false
      end
  | RecordingService.OpComplete sessionId, Some s =>
      negb (String.eqb (RecordingSession.id s) sessionId)
      || match RecordingSession.status s with processing => true | _ => false end
  | _, _ => true
  end.

Fixpoint run_in_order (ops : list RecordingService.Op)
    (st : RecordingService.State) : bool :=
  match ops with
  | [] => true
  | op :: rest => in_order op st && run_in_order rest (RecordingService.step op st)
  end.

(** Two views of how a session object may change: its recorded sequences
    are the same, or they have grown at the end. *)
Definition same_records (s s' : RecordingSession.t) : Prop :=
  RecordingSession.interactions s' = RecordingSession.interactions s
  /\ RecordingSession.apiCalls s' = RecordingSession.apiCalls s.

Definition grows (s s' : RecordingSession.t) : Prop :=
  RecordingSession.interactions s `prefix_of` RecordingSession.interactions s'
  /\ RecordingSession.apiCalls s `prefix_of` RecordingSession.apiCalls s'.

(** Every session object of the store [l] is still in [l'], under the same
    reference, and related to its former self by [R]. *)
Definition each_session (R : RecordingSession.t -> RecordingSession.t -> Prop)
    (l l' : list RecordingSession.t) : Prop :=
  forall r s, l !! r = Some s -> exists s', l' !! r = Some s' /\ R s s'.

(** Keyword match on a step: the keyword occurs in the action text once
    the text is lower-cased. *)
Definition mentions (keyword : string) (step : TestStep.t) : bool :=
  Js.includes keyword (Js.toLowerCase (TestStep.action step)).

(** The file name as the specification words it: the title lower-cased,
    characters other than letters, digits and spaces removed, each space
    replaced by an underscore; then [.py] for pytest and [.feature] for the
    other formats. *)
Definition spec_strip (s : string) : string :=
  Js.filter (fun c => Js.is_lower c || Js.is_digit c || Ascii.eqb c " ") s.

Definition spec_underscore (s : string) : string :=
  Js.map (fun c => if Ascii.eqb c " " then "_"%char else c) s.

Definition spec_baseName (title : string) : string :=
  spec_underscore (spec_strip (Js.toLowerCase title)).

Definition spec_filename (tc : TestCase.t) : string :=
  (spec_baseName (TestCase.title tc)
   ++ (if String.eqb (TestCase.format tc) "pytest" then ".py" else ".feature"))%string.

(** A plain title: ASCII letters and digits, words separated by one space. *)
Fixpoint plain_from (after_space : bool) (title : string) : bool :=
  match title with
  | EmptyString => true
  | String c rest =>
      if Ascii.eqb c " " then negb after_space && plain_from true rest
      else (Js.is_upper c || Js.is_lower c || Js.is_digit c)
           && plain_from false rest
  end.

Definition plain (title : string) : bool := plain_from false title.

(** The records that a run of ingestion calls delivers, in arrival order. *)
Fixpoint arrived_interactions (ops : list RecordingService.Op)
    : list Interaction.t :=
  match ops with
  | [] => []
  | RecordingService.OpRecordInteraction i :: rest =>
      i :: arrived_interactions rest
  | _ :: rest => arrived_interactions rest
  end.

Fixpoint arrived_apiCalls (ops : list RecordingService.Op) : list ApiCall.t :=
  match ops with
  | [] => []
  | RecordingService.OpRecordApiCall a :: rest => a :: arrived_apiCalls rest
  | _ :: rest => arrived_apiCalls rest
  end.

Definition ingestion (op : RecordingService.Op) : bool :=
  match op with
  | RecordingService.OpRecordInteraction _
  | RecordingService.OpRecordApiCall _ => true
  | _ => false
  end.


(** The service holds no session while its flag is still set. *)
Definition stuck (st : RecordingService.State) : Prop :=
  RecordingService.currentSession st = None
  /\ RecordingService.isRecording st = true.

(** The fields that identify a session are the same in [s] and [s']. *)
Definition identity_kept (s s' : RecordingSession.t) : Prop :=
  RecordingSession.id s' = RecordingSession.id s
  /\ RecordingSession.userId s' = RecordingSession.userId s
  /\ RecordingSession.url s' = RecordingSession.url s
  /\ RecordingSession.startTime s' = RecordingSession.startTime s.

(** An [endTime] that is set in [s] is set in [s']. *)
Definition endTime_kept (s s' : RecordingSession.t) : Prop :=
  is_Some (RecordingSession.endTime s) -> is_Some (RecordingSession.endTime s').

(** A session that is [processing] has its [endTime]. *)
Definition processing_stamped (s : RecordingSession.t) : Prop :=
  RecordingSession.status s = processing -> is_Some (RecordingSession.endTime s).

(** The session a service holds is not a completed one. *)
Definition holds_open_session (st : RecordingService.State) : Prop :=
  forall s, RecordingService.current st = Some s ->
            RecordingSession.status s <> completed.

(** The session under reference [r] exists and is not the current one. *)
Definition released (r : nat) (st : RecordingService.State) : Prop :=
  r < length (RecordingService.sessions st)
  /\ RecordingService.currentSession st <> Some r.

(** Every character of [s] satisfies [p]. *)
Fixpoint all_chars (p : ascii -> bool) (s : string) : bool :=
  match s with
  | EmptyString => true
  | String c rest => p c && all_chars p rest
  end.

(** A step as [extractSteps] makes it: no element, no value, and an
    action that is a trimmed line carrying a step marker. *)
Definition parsed_step (step : TestStep.t) : Prop :=
  TestStep.element step = EmptyString
  /\ TestStep.value step = None
  /\ TestCaseGenerator.step_marker (TestStep.action step) = true.

(** The Gherkin clauses that name no element and no typed value. *)
Definition bare_clause (step : TestStep.t) (clause : string) : Prop :=
  clause = Js.cat [ "    When I click on "; Js.dq; Js.dq ]
  \/ clause = Js.cat [ "    When I enter "; Js.dq; "test data"; Js.dq;
                       " in "; Js.dq; Js.dq ]
  \/ clause = Js.cat [ "    Given I navigate to "; Js.dq; "the page"; Js.dq ]
  \/ clause = Js.cat [ "    And I "; Js.toLowerCase (TestStep.action step) ].

(** The characters [toSnakeCase] lets through, and those of a file name. *)
Definition snake_char (c : ascii) : bool :=
  Js.is_lower c || Js.is_digit c || (Js.code c =? 95).

Definition filename_char (c : ascii) : bool :=
  snake_char c || (Js.code c =? 46).

Definition not_space (c : ascii) : bool := negb (Js.is_space c).






(** A marker of the parser starts somewhere in [s]. *)
Fixpoint has_marker (s : string) : bool :=
  bool_decide (is_Some (TestCaseGenerator.match_marker s))
  || match s with
     | EmptyString => false
     | String _ s' => has_marker s'
     end.

(** [s.endsWith(suffix)], used to state what a file name ends in. *)
Fixpoint ends_with (suffix s : string) : bool :=
  String.eqb suffix s
  || match s with
     | EmptyString => false
     | String _ s' => ends_with suffix s'
     end.

(** * Properties *)

(** ** The embedding on concrete inputs *)

Example trim_keeps_inner_space : Js.trim "  a b  " = "a b".
Proof. reflexivity. Qed.

Example split_on_space : Js.split " " "btn primary" = ["btn"; "primary"].
Proof. reflexivity. Qed.

Example split_markers_pieces :
  TestCaseGenerator.split_markers
    "intro Test Case 12: a Scenario: b Feature:Feature: c Test Case : d"
  = ["intro "; " a "; " b "; ""; " c Test Case : d"].
Proof. reflexivity. Qed.

Example sections_of_markers_only :
  TestCaseGenerator.sections " Scenario:  Feature: " = [].
Proof. reflexivity. Qed.

Example description_label_removed :
  TestCaseGenerator.extractDescription "Login
DESCRIPTION: checks the login " = "checks the login".
Proof. reflexivity. Qed.

Example pascal_and_snake :
  FileDownloadService.toPascalCase "login flow fooBar 9x" = "LoginFlowFooBar9x"
  /\ FileDownloadService.toSnakeCase "Login  Flow: Step_2" = "login_flow_step_2".
Proof. split; reflexivity. Qed.

Example first_url_in_content :
  FileDownloadService.extractUrlFromContent "open https://a.b/c?d then http://e"
  = "https://a.b/c?d"
  /\ FileDownloadService.extractUrlFromContent "no link" = "https://example.com".
Proof. split; reflexivity. Qed.

Example selector_by_path :
  CaptureScript.getSelector
    (CaptureScript.Child "DIV" "" (CaptureScript.ClassString "")
       (CaptureScript.Child "SECTION" "" (CaptureScript.ClassString "a b")
          (CaptureScript.Child "BODY" "main" (CaptureScript.ClassString "")
             (CaptureScript.Child "HTML" "" (CaptureScript.ClassString "")
                (CaptureScript.Detached "" "" (CaptureScript.ClassString ""))))))
  = CaptureScript.Returns "body#main > section.a > div".
Proof. reflexivity. Qed.

(** A click on an SVG element without an id posts nothing and uses up a
    number. *)
Example svg_click_uses_a_number :
  let page := CaptureScript.Detached "" "" (CaptureScript.ClassString "") in
  let button :=
    CaptureAgent.mkTarget
      (CaptureScript.Child "BUTTON" "" (CaptureScript.ClassString "btn") page)
      (Some "Buy") "" in
  let circle :=
    CaptureAgent.mkTarget
      (CaptureScript.Child "circle" "" (CaptureScript.ClassAnimated "") page)
      (Some "") "" in
  List.map Interaction.id
    (fst (CaptureAgent.handle_all
            [CaptureAgent.Click button "t1"; CaptureAgent.Click circle "t2";
             CaptureAgent.Click button "t3"]
            (CaptureAgent.loaded "https://example.com")))
  = ["interaction_1"; "interaction_3"].
Proof. reflexivity. Qed.

(** A recording with one click and one input, then stopped. *)
Example recorded_then_stopped :
  option_map
    (fun s => (RecordingSession.status s, RecordingSession.interactions s))
    (RecordingService.sessions
       (RecordingService.run
          [RecordingService.OpMessage
             (RecordingService.INTERACTION_RECORDED Scenario.buy_click);
           RecordingService.OpMessage
             (RecordingService.INTERACTION_RECORDED Scenario.qty_input);
           RecordingService.OpStop "2024-01-01T00:05:00.000Z";
           RecordingService.OpMessage
             (RecordingService.INTERACTION_RECORDED Scenario.buy_click)]
          Scenario.started) !! 0)
  = Some (processing, [Scenario.buy_click; Scenario.qty_input]).
Proof. reflexivity. Qed.

(** After [completeSession] on a recording session no session is held but
    the flag is still set: [startRecording] throws. *)
Example start_after_complete :
  let st := RecordingService.completeSession "session_1000" Scenario.started in
  RecordingService.currentSession st = None
  /\ fst (RecordingService.startRecording 2000 "t" true "https://example.org"
            "u2" st)
     = RecordingService.Throw "Recording already in progress".
Proof. split; reflexivity. Qed.

(** ** Session controller *)

Section Controller.

Import RecordingService RecordingSession.


Lemma lookup_snoc_new {A} (l : list A) (x : A) : (l ++ [x]) !! length l = Some x.
Proof.
  rewrite lookup_app_r by lia. now replace (length l - length l) with 0 by lia.
Qed.

Lemma current_update f st :
  current (update_current f st) = option_map f (current st).
Proof.
  unfold current, update_current.
  destruct (currentSession st) as [r|] eqn:E; [|now rewrite E].
  cbn [with_sessions currentSession sessions]. rewrite E.
  rewrite list_lookup_alter_eq. now destruct (sessions st !! r).
Qed.

Lemma current_save st : current (saveSessionToDatabase st) = current st.
Proof.
  unfold saveSessionToDatabase.
  destruct (current st) eqn:E; [exact E | exact E].
Qed.

Lemma current_open opens st : current (openRecordingWindow opens st) = current st.
Proof. now destruct opens. Qed.

Lemma isRecording_update f st :
  isRecording (update_current f st) = isRecording st.
Proof. unfold update_current. now destruct (currentSession st). Qed.

Lemma isRecording_save st :
  isRecording (saveSessionToDatabase st) = isRecording st.
Proof. unfold saveSessionToDatabase. now destruct (current st). Qed.











Lemma update_current_lookup f st r s :
  currentSession st = Some r -> sessions st !! r = Some s ->
  sessions (update_current f st) !! r = Some (f s).
Proof.
  intros Hc Hs. unfold update_current. rewrite Hc. simpl.
  rewrite list_lookup_alter_eq, Hs. reflexivity.
Qed.

Lemma stopRecording_noop iso st :
  isRecording st = false \/ currentSession st = None ->
  stopRecording iso st = (None, st).
Proof.
  intros [H|H]; unfold stopRecording; rewrite H; cbn [negb orb is_null];
    [reflexivity | now rewrite orb_true_r].
Qed.

Lemma stopRecording_fires iso st r s :
  isRecording st = true -> currentSession st = Some r ->
  sessions st !! r = Some s ->
  exists st',
    stopRecording iso st = (Some r, st')
    /\ sessions st' !! r = Some (set_endTime iso (set_status processing s))
    /\ currentSession st' = Some r
    /\ isRecording st' = false
    /\ recordingWindow st' = None
    /\ (forall w x, recordingWindow st = Some w ->
                    windows st !! w = Some x ->
                    windows st' !! w = Some {| closed := true |})
    /\ console st'
       = console st
         ++ [SessionSaved (set_endTime iso (set_status processing s))].
Proof.
  intros Hflag Hc Hs.
  destruct st as [ss ws cs rw fl ls iv co]; simpl in *; subst cs fl.
  unfold stopRecording, saveSessionToDatabase, current, update_current,
    closeRecordingWindow, with_sessions, with_isRecording, log; simpl.
  rewrite !list_lookup_alter_eq, Hs; simpl.
  eexists; split; [reflexivity|]; simpl.
  rewrite !list_lookup_alter_eq, Hs; simpl.
  repeat split; auto.
  intros w x -> Hx. rewrite list_lookup_alter_eq, Hx. simpl.
  destruct x as [[]]; reflexivity.
Qed.





(** C10: [completeSession] with an id that is not the id of the held
    session, or with no session held, returns the service as it was:
    sessions, flag, window and the printed trace are all unchanged. *)
Theorem completeSession_frame sessionId st :
  (forall s, current st = Some s -> RecordingSession.id s <> sessionId) ->
  completeSession sessionId st = st.
Proof.
  intros H. unfold completeSession.
  destruct (current st) as [s|] eqn:E; [|reflexivity].
  destruct (String.eqb_spec (id s) sessionId) as [Heq|Hne]; [|reflexivity].
  now destruct (H s eq_refl).
Qed.

Lemma completeSession_frame_witness :
  completeSession "session_7" Scenario.started = Scenario.started
  /\ completeSession "session_1000" initial = initial.
Proof.
  split; apply completeSession_frame.
  - intros s Hs. injection Hs as <-. discriminate.
  - intros s Hs. discriminate Hs.
Defined.

End Controller.


(** ** Append-only records *)

Section Records.

Import RecordingService RecordingSession.

Variable R : RecordingSession.t -> RecordingSession.t -> Prop.
Hypothesis R_refl : forall s, R s s.
Hypothesis R_trans : forall a b c, R a b -> R b c -> R a c.
Hypothesis R_status : forall x s, R s (set_status x s).
Hypothesis R_endTime : forall e s, R s (set_endTime e s).

Lemma each_session_refl l : each_session R l l.
Proof. intros r s H. eauto. Qed.

Lemma each_session_trans l1 l2 l3 :
  each_session R l1 l2 -> each_session R l2 l3 -> each_session R l1 l3.
Proof.
  intros H12 H23 r s H.
  destruct (H12 r s H) as (s2 & H2 & HR2).
  destruct (H23 r s2 H2) as (s3 & H3 & HR3).
  eauto.
Qed.

Lemma each_session_alter f r l :
  (forall s, R s (f s)) -> each_session R l (alter f r l).
Proof.
  intros Hf k s Hk. destruct (decide (r = k)) as [->|Hne].
  - rewrite list_lookup_alter_eq, Hk. simpl. eauto.
  - rewrite list_lookup_alter_ne by assumption. eauto.
Qed.

Lemma each_session_snoc l x : each_session R l (l ++ [x]).
Proof.
  intros r s H. exists s. split; [|apply R_refl].
  rewrite lookup_app_l; [assumption | eapply lookup_lt_Some; eassumption].
Qed.

Lemma each_session_update f st :
  (forall s, R s (f s)) ->
  each_session R (sessions st) (sessions (update_current f st)).
Proof.
  intros Hf. unfold update_current.
  destruct (currentSession st); [|apply each_session_refl].
  now apply each_session_alter.
Qed.

Lemma sessions_save st : sessions (saveSessionToDatabase st) = sessions st.
Proof. unfold saveSessionToDatabase. now destruct (current st). Qed.

Lemma sessions_open opens st : sessions (openRecordingWindow opens st) = sessions st.
Proof. now destruct opens. Qed.

Lemma startRecording_each now iso opens url userId st :
  each_session R (sessions st)
    (sessions (snd (startRecording now iso opens url userId st))).
Proof.
  unfold startRecording. destruct (isRecording st); [apply each_session_refl|].
  cbn [snd with_isRecording sessions].
  rewrite sessions_open, sessions_save. apply each_session_snoc.
Qed.

Lemma stopRecording_each iso st :
  each_session R (sessions st) (sessions (snd (stopRecording iso st))).
Proof.
  unfold stopRecording.
  destruct (negb (isRecording st) || is_null (currentSession st));
    [apply each_session_refl|].
  cbn [snd]. rewrite sessions_save. cbn [closeRecordingWindow sessions].
  eapply each_session_trans; [|apply each_session_update, R_endTime].
  apply (each_session_update _ (with_isRecording false st)), R_status.
Qed.

Lemma completeSession_each sessionId st :
  each_session R (sessions st) (sessions (completeSession sessionId st)).
Proof.
  unfold completeSession. destruct (current st); [|apply each_session_refl].
  destruct (String.eqb _ _); [|apply each_session_refl].
  cbn [sessions]. rewrite sessions_save. apply each_session_update, R_status.
Qed.

Lemma pause_resume_each st :
  each_session R (sessions st) (sessions (pauseRecording st))
  /\ each_session R (sessions st) (sessions (resumeRecording st)).
Proof.
  unfold pauseRecording, resumeRecording.
  destruct (currentSession st) eqn:E; [|split; apply each_session_refl].
  split; cbn [with_isRecording sessions]; apply each_session_update, R_status.
Qed.

Lemma checkWindow_each iso st :
  each_session R (sessions st) (sessions (checkWindow iso st)).
Proof.
  unfold checkWindow. destruct (intervals st); [apply each_session_refl|].
  destruct (recordingWindow st); [|apply each_session_refl].
  destruct (windows st !! _) as [[[]]|]; try apply each_session_refl.
  match goal with |- context [stopRecording iso ?x] =>
    apply (stopRecording_each iso x) end.
Qed.

Lemma userClosesWindow_each st :
  each_session R (sessions st) (sessions (userClosesWindow st)).
Proof.
  unfold userClosesWindow. destruct (recordingWindow st); apply each_session_refl.
Qed.

(** Every lifecycle operation keeps every session object, related by [R]. *)
Lemma lifecycle_each op st :
  lifecycle op = true -> each_session R (sessions st) (sessions (step op st)).
Proof.
  destruct op; cbn [lifecycle step]; intros H; try discriminate H.
  - apply startRecording_each.
  - apply stopRecording_each.
  - apply pause_resume_each.
  - apply pause_resume_each.
  - apply completeSession_each.
  - apply checkWindow_each.
  - apply userClosesWindow_each.
Qed.

Hypothesis R_interaction : forall i s, R s (push_interaction i s).
Hypothesis R_apiCall : forall a s, R s (push_apiCall a s).

Lemma recordInteraction_each i st :
  each_session R (sessions st) (sessions (recordInteraction i st)).
Proof.
  unfold recordInteraction.
  destruct (currentSession st) eqn:E; [|apply each_session_refl].
  cbn [log sessions]. apply each_session_update; auto.
Qed.

Lemma recordApiCall_each a st :
  each_session R (sessions st) (sessions (recordApiCall a st)).
Proof.
  unfold recordApiCall.
  destruct (currentSession st) eqn:E; [|apply each_session_refl].
  cbn [log sessions]. apply each_session_update; auto.
Qed.

Lemma onMessage_each m st :
  each_session R (sessions st) (sessions (onMessage m st)).
Proof.
  unfold onMessage. destruct (currentSession st); [|apply each_session_refl].
  destruct (negb (isRecording st)); [apply each_session_refl|].
  destruct m as [i|a|t]; [| |apply each_session_refl].
  - apply recordInteraction_each.
  - apply recordApiCall_each.
Qed.

Lemma iter_each n m st :
  each_session R (sessions st) (sessions (Nat.iter n (onMessage m) st)).
Proof.
  induction n as [|n IH]; [apply each_session_refl|].
  cbn [Nat.iter]. eapply each_session_trans; [exact IH | apply onMessage_each].
Qed.

Lemma step_each op st :
  each_session R (sessions st) (sessions (step op st)).
Proof.
  destruct (lifecycle op) eqn:E; [now apply lifecycle_each|].
  destruct op; try discriminate E; cbn [step].
  - apply recordInteraction_each.
  - apply recordApiCall_each.
  - apply iter_each.
Qed.

Lemma run_each ops st :
  each_session R (sessions st) (sessions (run ops st)).
Proof.
  revert st. induction ops as [|op ops IH]; intros st;
    [apply each_session_refl|].
  cbn [run fold_left]. eapply each_session_trans; [apply step_each | apply IH].
Qed.

End Records.

Section AppendOnly.

Import RecordingService RecordingSession.

Lemma same_records_refl s : same_records s s.
Proof. now split. Qed.

Lemma same_records_trans a b c :
  same_records a b -> same_records b c -> same_records a c.
Proof. intros [H1 H2] [H3 H4]. split; congruence. Qed.

Lemma grows_refl s : grows s s.
Proof. now split. Qed.

Lemma grows_trans a b c : grows a b -> grows b c -> grows a c.
Proof. intros [H1 H2] [H3 H4]. split; etransitivity; eassumption. Qed.

Lemma grows_push_interaction i s : grows s (push_interaction i s).
Proof. split; cbn; [now apply prefix_app_r | reflexivity]. Qed.

Lemma grows_push_apiCall a s : grows s (push_apiCall a s).
Proof. split; cbn; [reflexivity | now apply prefix_app_r]. Qed.

Lemma ingestion_run ops : forall st r s,
  currentSession st = Some r -> sessions st !! r = Some s ->
  forallb ingestion ops = true ->
  exists s', sessions (run ops st) !! r = Some s'
             /\ interactions s' = interactions s ++ arrived_interactions ops
             /\ apiCalls s' = apiCalls s ++ arrived_apiCalls ops.
Proof.
  induction ops as [|op ops IH]; intros st r s Hc Hs Hing.
  - exists s. cbn. now rewrite !app_nil_r.
  - cbn [forallb] in Hing. apply andb_true_iff in Hing as [Hop Hing].
    destruct op; try discriminate Hop; cbn [run fold_left step].
    + destruct (IH (recordInteraction i st) r (push_interaction i s))
        as (s' & H1 & H2 & H3); auto.
      * unfold recordInteraction, update_current. rewrite Hc. exact Hc.
      * unfold recordInteraction. rewrite Hc. cbn [log sessions].
        now apply update_current_lookup.
      * exists s'. cbn in H2, H3. cbn [arrived_interactions arrived_apiCalls].
        now rewrite H2, H3, <- app_assoc.
    + destruct (IH (recordApiCall a st) r (push_apiCall a s))
        as (s' & H1 & H2 & H3); auto.
      * unfold recordApiCall, update_current. rewrite Hc. exact Hc.
      * unfold recordApiCall. rewrite Hc. cbn [log sessions].
        now apply update_current_lookup.
      * exists s'. cbn in H2, H3. cbn [arrived_interactions arrived_apiCalls].
        now rewrite H2, H3, <- app_assoc.
Qed.

(** C5: the recorded sequences of every session object are append-only.
    For a session [s] stored under reference [r]:
    - [recordInteraction] ([recordApiCall]) on the current session puts the
      record at the end of [interactions] ([apiCalls]) and leaves the other
      sequence as it is;
    - a lifecycle operation (start, stop, pause, resume, complete, the
      window check, the user closing the window) leaves both sequences of
      every session exactly as they are;
    - a run of ingestion calls on the current session leaves each sequence
      as it was, followed by the records delivered, in arrival order;
    - after any run of operations both sequences of [s] are still there as
      a prefix, in the same order, of what the session then holds. *)
Theorem records_append_only st r s :
  sessions st !! r = Some s ->
  (forall i, currentSession st = Some r ->
     exists s', sessions (recordInteraction i st) !! r = Some s'
                /\ interactions s' = interactions s ++ [i]
                /\ apiCalls s' = apiCalls s)
  /\ (forall a, currentSession st = Some r ->
        exists s', sessions (recordApiCall a st) !! r = Some s'
                   /\ interactions s' = interactions s
                   /\ apiCalls s' = apiCalls s ++ [a])
  /\ (forall op, lifecycle op = true ->
        exists s', sessions (step op st) !! r = Some s' /\ same_records s s')
  /\ (forall ops, currentSession st = Some r -> forallb ingestion ops = true ->
        exists s', sessions (run ops st) !! r = Some s'
                   /\ interactions s' = interactions s ++ arrived_interactions ops
                   /\ apiCalls s' = apiCalls s ++ arrived_apiCalls ops)
  /\ (forall ops,
        exists s', sessions (run ops st) !! r = Some s' /\ grows s s').
Proof.
  intros Hs. repeat split.
  - intros i Hc. exists (push_interaction i s).
    unfold recordInteraction. rewrite Hc. cbn [log sessions].
    now rewrite (update_current_lookup _ _ _ _ Hc Hs).
  - intros a Hc. exists (push_apiCall a s).
    unfold recordApiCall. rewrite Hc. cbn [log sessions].
    now rewrite (update_current_lookup _ _ _ _ Hc Hs).
  - intros op Hop.
    apply (lifecycle_each same_records same_records_refl same_records_trans)
      with (r := r) (s := s); auto; intros; now split.
  - intros ops Hc Hing. now apply ingestion_run.
  - intros ops.
    apply (run_each grows grows_refl grows_trans) with (r := r) (s := s); auto;
      intros; try apply grows_push_interaction; try apply grows_push_apiCall;
      now split.
Qed.

Lemma records_append_only_witness :
  (exists s', sessions (recordInteraction Scenario.buy_click Scenario.started) !! 0
              = Some s'
              /\ interactions s' = [Scenario.buy_click] /\ apiCalls s' = [])
  /\ (exists s', sessions (run [OpRecordInteraction Scenario.buy_click;
                                OpRecordApiCall Scenario.search_call;
                                OpRecordInteraction Scenario.qty_input]
                             Scenario.started) !! 0 = Some s'
                 /\ interactions s' = [Scenario.buy_click; Scenario.qty_input]
                 /\ apiCalls s' = [Scenario.search_call])
  /\ (exists s', sessions (run [OpRecordInteraction Scenario.buy_click;
                                OpStop "t"; OpComplete "session_1000"]
                             Scenario.started) !! 0 = Some s'
                 /\ [] `prefix_of` interactions s').
Proof.
  destruct (records_append_only Scenario.started 0 _ eq_refl)
    as (H1 & _ & _ & H4 & H5).
  split; [|split].
  - exact (H1 Scenario.buy_click eq_refl).
  - exact (H4 [OpRecordInteraction Scenario.buy_click;
               OpRecordApiCall Scenario.search_call;
               OpRecordInteraction Scenario.qty_input] eq_refl eq_refl).
  - destruct (H5 [OpRecordInteraction Scenario.buy_click; OpStop "t";
                  OpComplete "session_1000"]) as (s' & Hs' & Hg & _).
    exists s'. split; [exact Hs' | exact Hg].
Defined.

End AppendOnly.

(** ** The [endTime] invariant *)

Section EndTime.

Import RecordingService RecordingSession.

Lemma invariant_open s :
  endTime s = None -> (status s = recording \/ status s = stopped) ->
  endTime_invariant s.
Proof.
  intros He Hs. unfold endTime_invariant. rewrite He. split.
  - intros [x Hx]. discriminate Hx.
  - intros [H|H]; rewrite H in Hs; destruct Hs; discriminate.
Qed.

Lemma invariant_closed s :
  is_Some (endTime s) -> (status s = processing \/ status s = completed) ->
  endTime_invariant s.
Proof. intros He Hs. unfold endTime_invariant. tauto. Qed.

Lemma invariant_no_endTime s :
  endTime_invariant s -> (status s = recording \/ status s = stopped) ->
  endTime s = None.
Proof.
  intros [H _] Hs. destruct (endTime s) as [e|]; [|reflexivity].
  destruct H as [H|H]; [now exists e | |]; rewrite H in Hs;
    destruct Hs; discriminate.
Qed.

Lemma Forall_update (P : RecordingSession.t -> Prop) f st :
  Forall P (sessions st) ->
  (forall x, current st = Some x -> P x -> P (f x)) ->
  Forall P (sessions (update_current f st)).
Proof.
  intros HP Hf. unfold update_current.
  destruct (currentSession st) as [r|] eqn:E; [|assumption].
  cbn [with_sessions sessions]. apply Forall_alter; [assumption|].
  intros x Hx. apply Hf. unfold current. now rewrite E.
Qed.

Lemma invariant_push i a s :
  endTime_invariant s ->
  endTime_invariant (push_interaction i s) /\ endTime_invariant (push_apiCall a s).
Proof. intros H. split; exact H. Qed.

Lemma stopRecording_invariant iso st :
  Forall endTime_invariant (sessions st) ->
  Forall endTime_invariant (sessions (snd (stopRecording iso st))).
Proof.
  intros H. unfold stopRecording.
  destruct (negb (isRecording st) || is_null (currentSession st));
    [assumption|].
  cbn [snd]. rewrite sessions_save.
  destruct st as [ss ws [r|] rw fl ls iv co]; [|exact H].
  unfold update_current; simpl in *.
  rewrite list_alter_alter_eq. apply Forall_alter; [assumption|].
  intros x _ _. apply invariant_closed; cbn; [now eexists | now left].
Qed.

Lemma onMessage_invariant m st :
  Forall endTime_invariant (sessions st) ->
  Forall endTime_invariant (sessions (onMessage m st)).
Proof.
  intros H. unfold onMessage, recordInteraction, recordApiCall.
  destruct (currentSession st) eqn:E; [|assumption].
  destruct (negb (isRecording st)); [assumption|].
  destruct m; [| |assumption]; cbn [log sessions];
    apply Forall_update; auto.
Qed.

(** One call in lifecycle order keeps the invariant on every session. *)
Lemma step_invariant op st :
  in_order op st = true ->
  Forall endTime_invariant (sessions st) ->
  Forall endTime_invariant (sessions (step op st)).
Proof.
  intros Hord H. destruct op; cbn [step].
  - unfold startRecording. destruct (isRecording st); [assumption|].
    cbn [snd with_isRecording sessions]. rewrite sessions_open, sessions_save.
    cbn [sessions]. apply Forall_app. split; [assumption|].
    constructor; [|constructor]. apply invariant_open; cbn; auto.
  - now apply stopRecording_invariant.
  - unfold pauseRecording. destruct (currentSession st) eqn:E; [|assumption].
    cbn [with_isRecording sessions]. apply Forall_update; [assumption|].
    intros x Hx Hinv. unfold in_order in Hord. rewrite Hx in Hord.
    apply invariant_open; cbn; [|now right].
    apply invariant_no_endTime; [assumption|].
    destruct (status x); auto; discriminate.
  - unfold resumeRecording. destruct (currentSession st) eqn:E; [|assumption].
    cbn [with_isRecording sessions]. apply Forall_update; [assumption|].
    intros x Hx Hinv. unfold in_order in Hord. rewrite Hx in Hord.
    apply invariant_open; cbn; [|now left].
    apply invariant_no_endTime; [assumption|].
    destruct (status x); auto; discriminate.
  - unfold completeSession. unfold in_order in Hord.
    destruct (current st) as [s|] eqn:E; [|assumption].
    destruct (String.eqb (id s) sessionId); [|assumption].
    cbn [sessions]. rewrite sessions_save.
    apply Forall_update; [assumption|].
    intros x Hx Hinv. rewrite E in Hx. injection Hx as <-.
    cbn [negb orb] in Hord.
    apply invariant_closed; cbn; [|now right].
    apply Hinv. left. destruct (status s); auto; discriminate.
  - unfold recordInteraction. destruct (currentSession st); [|assumption].
    cbn [log sessions]. apply Forall_update; auto.
  - unfold recordApiCall. destruct (currentSession st); [|assumption].
    cbn [log sessions]. apply Forall_update; auto.
  - unfold dispatchMessage. induction (listeners st) as [|n IH];
      [assumption | now apply onMessage_invariant].
  - unfold checkWindow. destruct (intervals st); [assumption|].
    destruct (recordingWindow st); [|assumption].
    destruct (windows st !! _) as [[[]]|]; try assumption.
    now apply stopRecording_invariant.
  - unfold userClosesWindow. now destruct (recordingWindow st).
Qed.

Lemma run_invariant ops st :
  run_in_order ops st = true ->
  Forall endTime_invariant (sessions st) ->
  Forall endTime_invariant (sessions (run ops st)).
Proof.
  revert st. induction ops as [|op ops IH]; intros st Hord H; [assumption|].
  cbn [run_in_order] in Hord. apply andb_true_iff in Hord as [H1 H2].
  cbn [run fold_left]. apply IH; [assumption|]. now apply step_invariant.
Qed.

(** C4, as the code has it: the invariant "[endTime] is set iff the status
    is [processing] or [completed]" holds for every session the service
    ever allocated, after every run of calls from the initial service in
    which [pauseRecording] and [resumeRecording] are applied only to a
    session that is recording or paused and [completeSession] only to a
    session that is processing. *)
Theorem endTime_invariant_in_order ops :
  run_in_order ops initial = true ->
  Forall endTime_invariant (sessions (run ops initial)).
Proof. intros H. apply run_invariant; [assumption | constructor]. Qed.

Lemma endTime_invariant_in_order_witness :
  Forall endTime_invariant
    (sessions (run [OpStart 1000 "t0" true "https://example.com" "u1";
                    OpPause; OpResume;
                    OpRecordInteraction Scenario.buy_click;
                    OpStop "t1"; OpComplete "session_1000"] initial)).
Proof. apply endTime_invariant_in_order. reflexivity. Defined.

(** C4 fails as stated: [resumeRecording] after [stopRecording] puts the
    session back to [recording] while its [endTime] stays set. *)
Lemma endTime_set_while_recording :
  exists s,
    sessions (run [OpStart 1000 "t0" true "https://example.com" "u1";
                   OpStop "t1"; OpResume] initial) !! 0 = Some s
    /\ status s = recording /\ endTime s = Some "t1"
    /\ ~ endTime_invariant s.
Proof.
  eexists. split; [reflexivity|]. cbn. repeat split.
  intros [H _]. destruct H as [H|H]; [now eexists | |]; discriminate H.
Qed.

End EndTime.

(** ** Response parser *)

Section Parser.

Import TestCaseGenerator.

Lemma filter_all {A} (p : A -> bool) (l : list A) :
  Forall (fun x => p x = true) (List.filter p l).
Proof.
  induction l as [|x l IH]; cbn; [constructor|].
  destruct (p x) eqn:E; [constructor|]; assumption.
Qed.

(** Each section with a non-blank text gives one test case. *)
Lemma cases_from_length now iso sessionId format index secs :
  Forall (fun s => Js.truthy (Js.trim s) = true) secs ->
  length (cases_from now iso sessionId format index secs) = length secs.
Proof.
  intros H. revert index. induction H as [|s secs Hs _ IH]; intros index;
    [reflexivity|].
  cbn [cases_from]. rewrite Hs. cbn [length]. now rewrite IH.
Qed.

(** Pieces that are all empty leave no section. *)
Lemma sections_of_empty_pieces response :
  Forall (fun piece => piece = EmptyString) (split_markers response) ->
  sections response = [].
Proof.
  unfold sections. induction 1 as [|piece pieces -> _ IH]; [reflexivity|].
  exact IH.
Qed.

(** C3: [parseAIResponse] returns one test case per section of the
    response (a piece of the split that is not blank) and, when there is
    none - in particular when every piece of the split is empty - exactly
    one default test case; so it always returns at least one.  The default
    test case is titled "Generated Test Case", carries the response
    unchanged as its content and has no steps. *)
Theorem parseAIResponse_at_least_one now iso now_end iso_end
    response sessionId format :
  let testCases :=
    parseAIResponse now iso now_end iso_end response sessionId format in
  1 <= length testCases
  /\ length testCases = Nat.max 1 (length (sections response))
  /\ (sections response = [] ->
      exists tc, testCases = [tc]
                 /\ TestCase.title tc = "Generated Test Case"
                 /\ TestCase.content tc = response
                 /\ TestCase.steps tc = [])
  /\ (Forall (fun piece => piece = EmptyString) (split_markers response) ->
      sections response = []).
Proof.
  cbv zeta. unfold parseAIResponse.
  pose proof (cases_from_length now iso sessionId format 0 (sections response)
                (filter_all _ _)) as Hlen.
  destruct (sections response) as [|sec secs] eqn:E.
  - cbn. repeat split; [lia|]. intros _. eexists. repeat split.
  - destruct (cases_from now iso sessionId format 0 (sec :: secs)) as [|c cs];
      [discriminate Hlen|].
    cbn [length Nat.eqb]. cbn [length] in Hlen.
    repeat split; [lia | lia | | ].
    + intros H. discriminate H.
    + rewrite <- E. apply sections_of_empty_pieces.
Qed.

Lemma parseAIResponse_at_least_one_witness :
  exists tc,
    parseAIResponse (fun _ => 5%N) (fun _ => "t") 6%N "t'"
      " Scenario:  Feature: " "session_1000" "gherkin" = [tc]
    /\ TestCase.title tc = "Generated Test Case"
    /\ TestCase.content tc = " Scenario:  Feature: "
    /\ TestCase.steps tc = [].
Proof.
  apply (proj1 (proj2 (proj2 (parseAIResponse_at_least_one (fun _ => 5%N)
                         (fun _ => "t") 6%N "t'" " Scenario:  Feature: "
                         "session_1000" "gherkin")))).
  reflexivity.
Defined.

End Parser.

(** ** Selector resolution *)

Section Selector.

Import CaptureScript.









End Selector.


(** ** Format renderer *)

Section Renderer.

Import FileDownloadService.
Import Js (cat, nl, dq).

Lemma append_empty_r (s : string) : (s ++ "")%string = s.
Proof. induction s as [|c s IH]; cbn; [reflexivity | now rewrite IH]. Qed.

Lemma append_assoc (a b c : string) :
  ((a ++ b) ++ c = a ++ (b ++ c))%string.
Proof. induction a as [|x a IH]; cbn; [reflexivity | now rewrite IH]. Qed.

Lemma cat_cons x xs : cat (x :: xs) = (x ++ cat xs)%string.
Proof. destruct xs; cbn; [now rewrite append_empty_r | reflexivity]. Qed.

Lemma cat_split n l : cat l = (cat (firstn n l) ++ cat (skipn n l))%string.
Proof.
  revert l. induction n as [|n IH]; intros [|x l]; try reflexivity.
  cbn [firstn skipn]. now rewrite !cat_cons, (IH l), append_assoc.
Qed.

Lemma prefix_map f p s :
  String.prefix p s = true -> String.prefix (Js.map f p) (Js.map f s) = true.
Proof.
  revert s. induction p as [|a p IH]; intros [|b s]; cbn; try easy.
  destruct (ascii_dec a b) as [->|_]; [|discriminate].
  intros H. destruct (ascii_dec (f b) (f b)); [now apply IH | contradiction].
Qed.

Lemma includes_map f k s :
  Js.includes k s = true -> Js.includes (Js.map f k) (Js.map f s) = true.
Proof.
  induction s as [|c s IH]; cbn [Js.includes Js.map]; unfold Js.startsWith;
    intros H; apply orb_true_iff in H as [H|H];
    apply orb_true_iff; try (left; exact (prefix_map f k _ H)).
  - discriminate H.
  - right. now apply IH.
Qed.

(** C8: each step is classified by keyword match on its lower-cased
    action text, the keywords being tried in this order: "click" gives the
    When-click clause; else "input" or "type" gives the When-enter clause;
    else "navigate" gives the Given-navigate clause; any other action gives
    the And clause.  An action that contains a keyword as written matches
    it.  The clauses of the steps are joined, in order, between the fixed
    first and last lines. *)
Theorem gherkin_clause_classification (step : TestStep.t) :
  (mentions "click" step = true ->
     gherkin_clause step
     = cat [ "    When I click on "; dq; TestStep.element step; dq ])
  /\ (mentions "click" step = false ->
      mentions "input" step = true \/ mentions "type" step = true ->
      gherkin_clause step
      = cat [ "    When I enter "; dq; value_or step "test data"; dq;
              " in "; dq; TestStep.element step; dq ])
  /\ (mentions "click" step = false -> mentions "input" step = false ->
      mentions "type" step = false -> mentions "navigate" step = true ->
      gherkin_clause step
      = cat [ "    Given I navigate to "; dq; value_or step "the page"; dq ])
  /\ (mentions "click" step = false -> mentions "input" step = false ->
      mentions "type" step = false -> mentions "navigate" step = false ->
      gherkin_clause step
      = cat [ "    And I "; Js.toLowerCase (TestStep.action step) ])
  /\ (forall keyword,
        In keyword ["click"; "input"; "type"; "navigate"] ->
        Js.includes keyword (TestStep.action step) = true ->
        mentions keyword step = true)
  /\ (forall tc,
        generateGherkinSteps tc
        = cat [ "Given I am on the application page"; nl;
                "    "; Js.join nl (List.map gherkin_clause (TestCase.steps tc)); nl;
                "    Then I should see the expected results"; nl;
                "    And the page should be displayed correctly" ]).
Proof.
  unfold mentions, gherkin_clause. repeat split.
  - intros ->. reflexivity.
  - intros -> [->| ->]; [reflexivity | now rewrite orb_true_r].
  - intros -> -> -> ->. reflexivity.
  - intros -> -> -> ->. reflexivity.
  - intros keyword Hin H.
    apply (includes_map Js.lower_char) in H.
    cbn [In] in Hin.
    destruct Hin as [<-|[<-|[<-|[<-|[]]]]]; exact H.
Qed.

Lemma gherkin_clause_classification_witness :
  gherkin_clause (TestStep.mk "step_0" "1. Click the button" "#buy" None None)
  = cat [ "    When I click on "; dq; "#buy"; dq ]
  /\ gherkin_clause (TestStep.mk "step_1" "- Type the amount" "#qty" (Some "42") None)
     = cat [ "    When I enter "; dq; "42"; dq; " in "; dq; "#qty"; dq ]
  /\ gherkin_clause (TestStep.mk "step_2" "Given I navigate home" "" None None)
     = cat [ "    Given I navigate to "; dq; "the page"; dq ]
  /\ gherkin_clause (TestStep.mk "step_3" "Then the total is shown" "" None None)
     = cat [ "    And I "; "then the total is shown" ].
Proof.
  split; [|split; [|split]].
  - apply (proj1 (gherkin_clause_classification
                    (TestStep.mk "step_0" "1. Click the button" "#buy" None None))).
    reflexivity.
  - apply (proj1 (proj2 (gherkin_clause_classification
                    (TestStep.mk "step_1" "- Type the amount" "#qty" (Some "42") None)))).
    + reflexivity.
    + right. reflexivity.
  - apply (proj1 (proj2 (proj2 (gherkin_clause_classification
                    (TestStep.mk "step_2" "Given I navigate home" "" None None)))));
      reflexivity.
  - apply (proj1 (proj2 (proj2 (proj2 (gherkin_clause_classification
                    (TestStep.mk "step_3" "Then the total is shown" "" None None))))));
      reflexivity.
Defined.

(** The characters of a plain title behave alike under both readings. *)
Lemma plain_char c :
  Ascii.eqb c " " = false ->
  Js.is_upper c || Js.is_lower c || Js.is_digit c = true ->
  let c' := Js.lower_char c in
  Js.is_space c' = false
  /\ Js.is_lower c' || Js.is_digit c' || (Js.code c' =? 95) = true
  /\ Js.is_lower c' || Js.is_digit c' || Ascii.eqb c' " " = true
  /\ Ascii.eqb c' " " = false.
Proof.
  destruct c as [[] [] [] [] [] [] [] []]; vm_compute; intros H1 H2;
    try discriminate H1; try discriminate H2; repeat split.
Qed.

Lemma strip_underscore x : strip (String "_" x) = String "_" (strip x).
Proof. reflexivity. Qed.

Lemma replace_ws_space x :
  Js.replace_ws_from false "_" (String " " x)
  = String "_" (Js.replace_ws_from true "_" x).
Proof. reflexivity. Qed.

Lemma spec_space x :
  spec_underscore (spec_strip (String " " x))
  = String "_" (spec_underscore (spec_strip x)).
Proof. reflexivity. Qed.

Lemma plain_baseName after_space title :
  plain_from after_space title = true ->
  strip (Js.replace_ws_from after_space "_" (Js.toLowerCase title))
  = spec_baseName title.
Proof.
  unfold spec_baseName, Js.toLowerCase.
  revert after_space. induction title as [|c t IH]; intros b H; [reflexivity|].
  cbn [plain_from] in H. cbn [Js.map].
  destruct (Ascii.eqb_spec c " ") as [->|Hne].
  - apply andb_true_iff in H as [Hb H]. destruct b; [discriminate Hb|].
    change (Js.lower_char " ") with " "%char.
    rewrite replace_ws_space, strip_underscore, spec_space.
    f_equal. apply (IH true H).
  - apply andb_true_iff in H as [Hc H].
    assert (Hne' : Ascii.eqb c " " = false) by now apply Ascii.eqb_neq.
    destruct (plain_char c Hne' Hc) as (H1 & H2 & H3 & H4).
    cbn [Js.replace_ws_from]. rewrite H1.
    unfold strip, spec_strip, spec_underscore. cbn [Js.filter].
    rewrite H2, H3. cbn [Js.map]. rewrite H4. f_equal. apply (IH false H).
Qed.

(** C9, as the code has it: the file name is a function of the title and
    the format.  Its base is the title lower-cased, each run of white space
    replaced by one underscore, then every character other than a-z, 0-9
    and the underscore removed.  The name is [test_] + base + [.py] for
    pytest, base + [.feature] for selenium_bdd and gherkin, and base +
    [.txt] for any other format.  On a plain title (ASCII letters and
    digits, single spaces) the base is the one the specification words. *)
Theorem generateFilename_spec (tc : TestCase.t) :
  let base :=
    strip (Js.replace_ws "_" (Js.toLowerCase (TestCase.title tc))) in
  (TestCase.format tc = "pytest" ->
     generateFilename tc = ("test_" ++ base ++ ".py")%string)
  /\ (TestCase.format tc = "selenium_bdd" \/ TestCase.format tc = "gherkin" ->
      generateFilename tc = (base ++ ".feature")%string)
  /\ (TestCase.format tc <> "pytest" -> TestCase.format tc <> "selenium_bdd" ->
      TestCase.format tc <> "gherkin" ->
      generateFilename tc = (base ++ ".txt")%string)
  /\ (plain (TestCase.title tc) = true -> base = spec_baseName (TestCase.title tc)).
Proof.
  cbv zeta. unfold generateFilename. repeat split.
  - intros ->. reflexivity.
  - intros [->| ->]; cbn [String.eqb Ascii.eqb Bool.eqb]; now rewrite cat_cons.
  - intros H1 H2 H3.
    apply String.eqb_neq in H1, H2, H3. rewrite H1, H2, H3.
    now rewrite cat_cons.
  - apply plain_baseName.
Qed.

Lemma generateFilename_spec_witness :
  generateFilename
    (TestCase.mk "test_1" "session_1000" "Login Flow" "d" [] "pytest" "c" "t")
  = "test_login_flow.py"
  /\ generateFilename
       (TestCase.mk "test_1" "session_1000" "Login  Flow: Step_2" "d" []
          "gherkin" "c" "t")
     = "login_flow_step_2.feature"
  /\ generateFilename
       (TestCase.mk "test_1" "session_1000" "Login Flow" "d" [] "junit" "c" "t")
     = "login_flow.txt"
  /\ strip (Js.replace_ws "_" (Js.toLowerCase "Login Flow"))
     = spec_baseName "Login Flow".
Proof.
  split; [|split; [|split]].
  - apply (proj1 (generateFilename_spec
             (TestCase.mk "test_1" "session_1000" "Login Flow" "d" []
                "pytest" "c" "t"))).
    reflexivity.
  - apply (proj1 (proj2 (generateFilename_spec
             (TestCase.mk "test_1" "session_1000" "Login  Flow: Step_2" "d" []
                "gherkin" "c" "t")))).
    now right.
  - apply (proj1 (proj2 (proj2 (generateFilename_spec
             (TestCase.mk "test_1" "session_1000" "Login Flow" "d" []
                "junit" "c" "t"))))); discriminate.
  - apply (proj2 (proj2 (proj2 (generateFilename_spec
             (TestCase.mk "test_1" "session_1000" "Login Flow" "d" []
                "pytest" "c" "t"))))).
    reflexivity.
Defined.

(** C9 fails as stated: for pytest the name carries the prefix [test_],
    which the title does not give. *)
Lemma generateFilename_pytest_prefix :
  generateFilename
    (TestCase.mk "test_1" "session_1000" "Login Flow" "d" [] "pytest" "c" "t")
  = "test_login_flow.py"
  /\ spec_filename
       (TestCase.mk "test_1" "session_1000" "Login Flow" "d" [] "pytest" "c" "t")
     = "login_flow.py"
  /\ generateFilename
       (TestCase.mk "test_1" "session_1000" "Login Flow" "d" [] "pytest" "c" "t")
     <> spec_filename
          (TestCase.mk "test_1" "session_1000" "Login Flow" "d" [] "pytest" "c" "t").
Proof. repeat split. discriminate. Qed.

(** C6, as the code has it: the rendered text is a function of the test
    case and of the clock reading [iso].  For every format other than
    pytest it does not depend on the clock.  For pytest the clock reading
    is written once into the header (after "Generated on: "), and the text
    before and after it depends on the test case alone. *)
Theorem generateFileContent_clock (tc : TestCase.t) :
  (TestCase.format tc <> "pytest" ->
     forall iso iso', generateFileContent iso tc = generateFileContent iso' tc)
  /\ (TestCase.format tc = "pytest" ->
      exists before after,
        before = cat [ dq; dq; dq; nl; TestCase.title tc; nl;
                       TestCase.description tc; nl; nl; "Generated on: " ]
        /\ forall iso,
             generateFileContent iso tc = (before ++ iso ++ after)%string).
Proof.
  unfold generateFileContent. split.
  - intros H iso iso'. apply String.eqb_neq in H. now rewrite H.
  - intros ->. cbn [String.eqb Ascii.eqb Bool.eqb].
    eexists; eexists; split; [reflexivity|]. intros iso.
    unfold generatePytestFile. cbv zeta.
    rewrite (cat_split 10). cbn [firstn skipn]. rewrite (cat_cons iso).
    reflexivity.
Qed.

Lemma generateFileContent_clock_witness :
  generateFileContent "2024-01-01T00:00:00.000Z"
    (TestCase.mk "test_1" "session_1000" "Login Flow" "d" [] "gherkin" "c" "t")
  = generateFileContent "2024-01-01T00:00:01.000Z"
      (TestCase.mk "test_1" "session_1000" "Login Flow" "d" [] "gherkin" "c" "t")
  /\ exists before after,
       before = cat [ dq; dq; dq; nl; "Login Flow"; nl; "d"; nl; nl;
                      "Generated on: " ]
       /\ forall iso,
            generateFileContent iso
              (TestCase.mk "test_1" "session_1000" "Login Flow" "d" []
                 "pytest" "c" "t")
            = (before ++ iso ++ after)%string.
Proof.
  split.
  - apply (proj1 (generateFileContent_clock
             (TestCase.mk "test_1" "session_1000" "Login Flow" "d" []
                "gherkin" "c" "t"))).
    discriminate.
  - apply (proj2 (generateFileContent_clock
             (TestCase.mk "test_1" "session_1000" "Login Flow" "d" []
                "pytest" "c" "t"))).
    reflexivity.
Defined.

(** C6 fails as stated: two renderings of one pytest test case, one
    second apart, differ. *)
Lemma generateFileContent_depends_on_clock :
  generateFileContent "2024-01-01T00:00:00.000Z"
    (TestCase.mk "test_1" "session_1000" "Login Flow" "d" [] "pytest" "c" "t")
  <> generateFileContent "2024-01-01T00:00:01.000Z"
       (TestCase.mk "test_1" "session_1000" "Login Flow" "d" [] "pytest" "c" "t").
Proof. intros H. vm_compute in H. discriminate H. Qed.

End Renderer.

(** ** Further properties of the session controller *)

Section ControllerMore.

Import RecordingService RecordingSession.

Lemma run_app ops ops' st : run (ops ++ ops') st = run ops' (run ops st).
Proof. unfold run. apply fold_left_app. Qed.

Lemma run_preserves (P : State -> Prop) :
  (forall op st, P st -> P (step op st)) ->
  forall ops st, P st -> P (run ops st).
Proof.
  intros Hstep ops. induction ops as [|op ops IH]; intros st H; [exact H|].
  cbn [run fold_left]. apply IH, Hstep, H.
Qed.

Lemma iter_fixed {A} (f : A -> A) (x : A) n : f x = x -> Nat.iter n f x = x.
Proof.
  intros H. induction n as [|n IH]; [reflexivity|].
  change (f (Nat.iter n f x) = x). now rewrite IH.
Qed.

Lemma onMessage_dropped m st :
  isRecording st = false \/ currentSession st = None -> onMessage m st = st.
Proof.
  unfold onMessage. intros [H|H]; rewrite H; [|reflexivity].
  now destruct (currentSession st).
Qed.

Lemma dispatchMessage_noop m st :
  isRecording st = false \/ currentSession st = None ->
  dispatchMessage m st = st.
Proof.
  intros H. unfold dispatchMessage. apply iter_fixed.
  now apply onMessage_dropped.
Qed.

(** X2: a message that arrives while the flag is clear (the session is
    paused or processing, or the service is idle) or while no session is
    held changes nothing, whatever its kind and however many listeners are
    registered; a message of an unknown kind never changes anything. *)
Theorem dispatchMessage_dropped m st :
  ((isRecording st = false \/ currentSession st = None) ->
     dispatchMessage m st = st)
  /\ (forall type, dispatchMessage (OtherMessage type) st = st).
Proof.
  split.
  - apply dispatchMessage_noop.
  - intros type. unfold dispatchMessage. apply iter_fixed.
    unfold onMessage. destruct (currentSession st); [|reflexivity].
    now destruct (negb (isRecording st)).
Qed.

Lemma dispatchMessage_dropped_witness :
  dispatchMessage (INTERACTION_RECORDED Scenario.buy_click) Scenario.paused
  = Scenario.paused
  /\ dispatchMessage (API_CALL_RECORDED Scenario.search_call) Scenario.stopping
     = Scenario.stopping.
Proof.
  split.
  - apply (proj1 (dispatchMessage_dropped
                    (INTERACTION_RECORDED Scenario.buy_click) Scenario.paused)).
    left. reflexivity.
  - apply (proj1 (dispatchMessage_dropped
                    (API_CALL_RECORDED Scenario.search_call) Scenario.stopping)).
    left. reflexivity.
Defined.

Lemma save_keeps st :
  listeners (saveSessionToDatabase st) = listeners st
  /\ windows (saveSessionToDatabase st) = windows st
  /\ recordingWindow (saveSessionToDatabase st) = recordingWindow st
  /\ currentSession (saveSessionToDatabase st) = currentSession st
  /\ intervals (saveSessionToDatabase st) = intervals st.
Proof. unfold saveSessionToDatabase. now destruct (current st). Qed.

Lemma update_keeps f st :
  listeners (update_current f st) = listeners st
  /\ windows (update_current f st) = windows st
  /\ recordingWindow (update_current f st) = recordingWindow st
  /\ currentSession (update_current f st) = currentSession st
  /\ intervals (update_current f st) = intervals st
  /\ console (update_current f st) = console st.
Proof.
  unfold update_current.
  destruct (currentSession st) eqn:E; repeat split; exact E.
Qed.










Lemma stuck_step op st : stuck st -> stuck (step op st).
Proof.
  intros [Hc Hf]. destruct op; cbn [step].
  - unfold startRecording. rewrite Hf. now split.
  - rewrite stopRecording_noop by now right. now split.
  - unfold pauseRecording. rewrite Hc. now split.
  - unfold resumeRecording. rewrite Hc. now split.
  - unfold completeSession, current. rewrite Hc. now split.
  - unfold recordInteraction. rewrite Hc. now split.
  - unfold recordApiCall. rewrite Hc. now split.
  - rewrite dispatchMessage_noop by now right. now split.
  - unfold checkWindow. destruct (intervals st); [now split|].
    destruct (recordingWindow st); [|now split].
    destruct (windows st !! _) as [[[]]|]; try now split.
    rewrite stopRecording_noop by now right. now split.
  - unfold userClosesWindow. destruct (recordingWindow st); now split.
Qed.

(** X3: [completeSession] releases the session without clearing the
    [isRecording] flag.  When it completes a session that is still
    recording, the service is left holding no session with the flag set,
    and nothing gets it out of that state: after any further run of calls
    it still holds no session and every [startRecording] throws. *)
Theorem completeSession_while_recording_blocks_start st s :
  current st = Some s -> isRecording st = true ->
  forall ops,
    stuck (run ops (completeSession (id s) st))
    /\ forall now iso opens url userId,
         fst (startRecording now iso opens url userId
                (run ops (completeSession (id s) st)))
         = Throw "Recording already in progress".
Proof.
  intros Hs Hf ops.
  assert (H0 : stuck (completeSession (id s) st)).
  { unfold completeSession. rewrite Hs, String.eqb_refl. split; [reflexivity|].
    cbn [isRecording]. now rewrite isRecording_save, isRecording_update. }
  pose proof (run_preserves stuck stuck_step ops _ H0) as [Hc' Hf'].
  split; [now split|]. intros. unfold startRecording. now rewrite Hf'.
Qed.

Lemma completeSession_while_recording_blocks_start_witness :
  stuck (run [OpStop "t"; OpResume; OpPause;
              OpMessage (INTERACTION_RECORDED Scenario.buy_click)]
           (completeSession "session_1000" Scenario.started))
  /\ forall now iso opens url userId,
       fst (startRecording now iso opens url userId
              (run [OpStop "t"; OpResume; OpPause;
                    OpMessage (INTERACTION_RECORDED Scenario.buy_click)]
                 (completeSession "session_1000" Scenario.started)))
       = Throw "Recording already in progress".
Proof.
  exact (completeSession_while_recording_blocks_start Scenario.started _
           eq_refl eq_refl
           [OpStop "t"; OpResume; OpPause;
            OpMessage (INTERACTION_RECORDED Scenario.buy_click)]).
Defined.

Lemma alter_fixed {A} (f : A -> A) (l : list A) r x :
  l !! r = Some x -> f x = x -> alter f r l = l.
Proof.
  intros Hx Hf. apply list_eq. intros k.
  destruct (decide (r = k)) as [<-|Hne].
  - rewrite list_lookup_alter_eq, Hx. cbn. now rewrite Hf.
  - now rewrite list_lookup_alter_ne.
Qed.

(** X4: pausing and resuming undo each other.  On a session that is
    recording (flag set), [pauseRecording] followed by [resumeRecording]
    gives back exactly the state before; on a paused session (status
    [stopped], flag clear), [resumeRecording] followed by [pauseRecording]
    does. *)
Theorem pause_resume_round_trip st r s :
  currentSession st = Some r -> sessions st !! r = Some s ->
  (isRecording st = true -> status s = recording ->
     resumeRecording (pauseRecording st) = st)
  /\ (isRecording st = false -> status s = stopped ->
      pauseRecording (resumeRecording st) = st).
Proof.
  intros Hc Hs.
  destruct st as [ss ws cs rw fl ls iv co]. cbn in Hc, Hs. subst cs.
  split; intros Hf Hst; cbn in Hf; subst fl;
    unfold pauseRecording, resumeRecording, update_current, with_sessions,
      with_isRecording; cbn;
    rewrite list_alter_alter_eq; f_equal;
    apply (alter_fixed _ _ _ _ Hs); destruct s; cbn in *; now subst.
Qed.

Lemma pause_resume_round_trip_witness :
  resumeRecording (pauseRecording Scenario.started) = Scenario.started
  /\ pauseRecording (resumeRecording Scenario.paused) = Scenario.paused.
Proof.
  split.
  - apply (proj1 (pause_resume_round_trip Scenario.started 0 _ eq_refl eq_refl));
      reflexivity.
  - apply (proj2 (pause_resume_round_trip Scenario.paused 0 _ eq_refl eq_refl));
      reflexivity.
Defined.

Lemma update_length f st :
  length (sessions (update_current f st)) = length (sessions st).
Proof.
  unfold update_current. destruct (currentSession st); [|reflexivity].
  cbn. apply length_alter.
Qed.




(** X6: the liveness check stops a recording whose window the user
    closed.  With a session recording, its window held and a timer
    registered, the user closing the window followed by one firing of the
    timer leaves the session [processing] with [endTime] stamped, the flag
    clear, no window held and one timer less.  While the window is open a
    firing of the timer changes nothing. *)
Theorem window_closure_detected st r s w x k iso :
  isRecording st = true -> currentSession st = Some r ->
  sessions st !! r = Some s ->
  recordingWindow st = Some w -> windows st !! w = Some x ->
  intervals st = S k ->
  let st' := checkWindow iso (userClosesWindow st) in
  sessions st' !! r = Some (set_endTime iso (set_status processing s))
  /\ isRecording st' = false
  /\ recordingWindow st' = None
  /\ intervals st' = k
  /\ (closed x = false -> checkWindow iso st = st).
Proof.
  intros Hf Hc Hs Hw Hx Hk. cbv zeta.
  destruct st as [ss ws cs rw fl ls iv co]. cbn in Hf, Hc, Hs, Hw, Hx, Hk.
  subst cs rw fl iv.
  unfold userClosesWindow, checkWindow.
  cbn [recordingWindow intervals windows sessions currentSession isRecording
       listeners console].
  rewrite list_lookup_alter_eq, Hx. cbn [fmap option_fmap option_map].
  split; [|split; [|split; [|split]]].
  - match goal with |- context [stopRecording iso ?y] =>
      destruct (stopRecording_fires iso y r s eq_refl eq_refl Hs)
        as (st' & -> & H & _) end.
    exact H.
  - match goal with |- context [stopRecording iso ?y] =>
      destruct (stopRecording_fires iso y r s eq_refl eq_refl Hs)
        as (st' & -> & _ & _ & H & _) end.
    exact H.
  - match goal with |- context [stopRecording iso ?y] =>
      destruct (stopRecording_fires iso y r s eq_refl eq_refl Hs)
        as (st' & -> & _ & _ & _ & H & _) end.
    exact H.
  - unfold stopRecording. cbn [isRecording currentSession negb orb is_null snd].
    match goal with |- context [saveSessionToDatabase ?y] =>
      destruct (save_keeps y) as (_ & _ & _ & _ & ->) end.
    unfold closeRecordingWindow. cbn [intervals].
    now rewrite !(proj1 (proj2 (proj2 (proj2 (proj2 (update_keeps _ _)))))).
  - intros Hopen. destruct x as [[]]; [discriminate Hopen | reflexivity].
Qed.

Lemma window_closure_detected_witness :
  option_map status
    (sessions (checkWindow "t1" (userClosesWindow Scenario.started)) !! 0)
  = Some processing
  /\ isRecording (checkWindow "t1" (userClosesWindow Scenario.started)) = false
  /\ checkWindow "t1" Scenario.started = Scenario.started.
Proof.
  destruct (window_closure_detected Scenario.started 0 _ 0 _ 0 "t1"
              eq_refl eq_refl eq_refl eq_refl eq_refl eq_refl)
    as (H1 & H2 & _ & _ & H5).
  split; [now rewrite H1 | split; [exact H2 | exact (H5 eq_refl)]].
Defined.

Lemma identity_kept_refl s : identity_kept s s.
Proof. now repeat split. Qed.

Lemma identity_kept_trans a b c :
  identity_kept a b -> identity_kept b c -> identity_kept a c.
Proof.
  intros (H1 & H2 & H3 & H4) (G1 & G2 & G3 & G4). repeat split; congruence.
Qed.

(** X7: the fields that identify a session never change.  Whatever calls
    the service receives, every session object keeps its [id], [userId],
    [url] and [startTime], under the same reference. *)
Theorem identity_never_changes ops st r s :
  sessions st !! r = Some s ->
  exists s', sessions (run ops st) !! r = Some s' /\ identity_kept s s'.
Proof.
  apply (run_each identity_kept identity_kept_refl identity_kept_trans);
    intros; now repeat split.
Qed.

Lemma identity_never_changes_witness :
  exists s',
    sessions (run [OpPause; OpResume; OpRecordInteraction Scenario.buy_click;
                   OpStop "t1"; OpComplete "session_1000";
                   OpStart 2000 "t2" true "https://example.org" "u2"]
                Scenario.started) !! 0 = Some s'
    /\ id s' = "session_1000" /\ userId s' = "u1"
    /\ url s' = "https://example.com"
    /\ startTime s' = "2024-01-01T00:00:00.000Z".
Proof.
  exact (identity_never_changes
           [OpPause; OpResume; OpRecordInteraction Scenario.buy_click;
            OpStop "t1"; OpComplete "session_1000";
            OpStart 2000 "t2" true "https://example.org" "u2"]
           Scenario.started 0 _ eq_refl).
Defined.

(** X8: an [endTime] is never cleared.  Once a session has one, it has
    one after any run of calls (a later [stopRecording] may replace it, no
    call removes it). *)
Theorem endTime_never_cleared ops st r s :
  sessions st !! r = Some s -> is_Some (endTime s) ->
  exists s', sessions (run ops st) !! r = Some s' /\ is_Some (endTime s').
Proof.
  intros Hs He.
  destruct (run_each endTime_kept (fun _ H => H)
              (fun a b c H1 H2 H => H2 (H1 H))
              (fun _ _ H => H) (fun e _ _ => ltac:(now eexists))
              (fun _ _ H => H) (fun _ _ H => H) ops st r s Hs)
    as (s' & Hs' & Hk).
  exists s'. split; [exact Hs' | exact (Hk He)].
Qed.

Lemma endTime_never_cleared_witness :
  exists s',
    sessions (run [OpResume; OpPause; OpComplete "session_7"; OpResume]
                Scenario.stopping) !! 0 = Some s'
    /\ is_Some (endTime s').
Proof.
  apply (endTime_never_cleared [OpResume; OpPause; OpComplete "session_7"; OpResume]
           Scenario.stopping 0 _ eq_refl).
  now eexists.
Defined.

Lemma stopRecording_Forall (P : RecordingSession.t -> Prop) iso st :
  (forall s, P (set_endTime iso (set_status processing s))) ->
  Forall P (sessions st) -> Forall P (sessions (snd (stopRecording iso st))).
Proof.
  intros HP H. unfold stopRecording.
  destruct (negb (isRecording st) || is_null (currentSession st));
    [assumption|].
  cbn [snd]. rewrite sessions_save.
  destruct st as [ss ws [r|] rw fl ls iv co]; [|exact H].
  unfold update_current; simpl in *.
  rewrite list_alter_alter_eq. apply Forall_alter; [assumption|].
  intros x _ _. apply HP.
Qed.

Lemma processing_stamped_step op st :
  Forall processing_stamped (sessions st) ->
  Forall processing_stamped (sessions (step op st)).
Proof.
  intros H.
  assert (Hstop : forall iso s,
             processing_stamped (set_endTime iso (set_status processing s)))
    by (intros iso s _; now eexists).
  assert (Hoff : forall x s, x <> processing ->
             processing_stamped (set_status x s))
    by (intros x s Hx Hp; now destruct Hx).
  destruct op; cbn [step].
  - unfold startRecording. destruct (isRecording st); [assumption|].
    cbn [snd with_isRecording sessions]. rewrite sessions_open, sessions_save.
    cbn [sessions]. apply Forall_app. split; [assumption|].
    constructor; [|constructor]. intros Hp. discriminate Hp.
  - now apply stopRecording_Forall.
  - unfold pauseRecording. destruct (currentSession st); [|assumption].
    cbn [with_isRecording sessions]. apply Forall_update; [assumption|].
    intros x _ _. now apply Hoff.
  - unfold resumeRecording. destruct (currentSession st); [|assumption].
    cbn [with_isRecording sessions]. apply Forall_update; [assumption|].
    intros x _ _. now apply Hoff.
  - unfold completeSession. destruct (current st); [|assumption].
    destruct (String.eqb _ _); [|assumption].
    cbn [sessions]. rewrite sessions_save.
    apply Forall_update; [assumption|]. intros x _ _. now apply Hoff.
  - unfold recordInteraction. destruct (currentSession st); [|assumption].
    cbn [log sessions]. apply Forall_update; auto.
  - unfold recordApiCall. destruct (currentSession st); [|assumption].
    cbn [log sessions]. apply Forall_update; auto.
  - unfold dispatchMessage. induction (listeners st) as [|n IH]; [assumption|].
    change (Nat.iter (S n) (onMessage m) st)
      with (onMessage m (Nat.iter n (onMessage m) st)).
    unfold onMessage, recordInteraction, recordApiCall.
    destruct (currentSession _); [|assumption].
    destruct (negb _); [assumption|].
    destruct m; [| |assumption]; cbn [log sessions];
      apply Forall_update; auto.
  - unfold checkWindow. destruct (intervals st); [assumption|].
    destruct (recordingWindow st); [|assumption].
    destruct (windows st !! _) as [[[]]|]; try assumption.
    now apply stopRecording_Forall.
  - unfold userClosesWindow. now destruct (recordingWindow st).
Qed.

(** X9: half of the data-model invariant holds with no condition on the
    order of calls: in every state the service can reach, every session
    whose status is [processing] has its [endTime] set. *)
Theorem processing_has_endTime ops :
  Forall processing_stamped (sessions (run ops initial)).
Proof.
  apply (run_preserves (fun st => Forall processing_stamped (sessions st)));
    [apply processing_stamped_step | constructor].
Qed.

Lemma holds_open_step op st :
  holds_open_session st -> holds_open_session (step op st).
Proof.
  intros H. destruct op; cbn [step]; unfold holds_open_session.
  - unfold startRecording. destruct (isRecording st); [exact H|].
    intros s. cbn [snd].
    change (current (with_isRecording true ?x)) with (current x).
    rewrite current_open, current_save. unfold current; cbn.
    rewrite lookup_snoc_new. intros [= <-]. discriminate.
  - unfold stopRecording.
    destruct (negb (isRecording st) || is_null (currentSession st)); [exact H|].
    intros s. cbn [snd]. rewrite current_save.
    change (current (closeRecordingWindow ?x)) with (current x).
    rewrite !current_update.
    change (current (with_isRecording false st)) with (current st).
    destruct (current st); [|discriminate]. cbn. intros [= <-]. discriminate.
  - unfold pauseRecording. destruct (currentSession st); [|exact H].
    intros s. change (current (with_isRecording ?b ?x)) with (current x).
    rewrite current_update. destruct (current st); [|discriminate].
    cbn. intros [= <-]. discriminate.
  - unfold resumeRecording. destruct (currentSession st); [|exact H].
    intros s. change (current (with_isRecording ?b ?x)) with (current x).
    rewrite current_update. destruct (current st); [|discriminate].
    cbn. intros [= <-]. discriminate.
  - unfold completeSession. destruct (current st) as [s0|]; [|exact H].
    destruct (String.eqb _ _); [|exact H]. intros s Hs. discriminate Hs.
  - unfold recordInteraction. destruct (currentSession st); [|exact H].
    intros s. change (current (log ?e ?x)) with (current x).
    rewrite current_update. destruct (current st) as [s0|] eqn:E; [|discriminate].
    cbn. intros [= <-]. exact (H s0 E).
  - unfold recordApiCall. destruct (currentSession st); [|exact H].
    intros s. change (current (log ?e ?x)) with (current x).
    rewrite current_update. destruct (current st) as [s0|] eqn:E; [|discriminate].
    cbn. intros [= <-]. exact (H s0 E).
  - unfold dispatchMessage. induction (listeners st) as [|n IH]; [exact H|].
    change (Nat.iter (S n) (onMessage m) st)
      with (onMessage m (Nat.iter n (onMessage m) st)).
    set (st' := Nat.iter n (onMessage m) st) in *.
    unfold onMessage, recordInteraction, recordApiCall.
    destruct (currentSession st'); [|exact IH].
    destruct (negb _); [exact IH|].
    destruct m; [| |exact IH]; intros s;
      change (current (log ?e ?x)) with (current x);
      rewrite current_update;
      (destruct (current st') as [s0|] eqn:E; [|discriminate]);
      cbn; intros [= <-]; first [exact (IH s0 E) | exact (IH s0 eq_refl)].
  - unfold checkWindow. destruct (intervals st); [exact H|].
    destruct (recordingWindow st); [|exact H].
    destruct (windows st !! _) as [[[]]|]; try exact H.
    unfold stopRecording. cbn [isRecording currentSession].
    destruct (negb (isRecording st) || is_null (currentSession st)); [exact H|].
    intros s. cbn [snd]. rewrite current_save.
    change (current (closeRecordingWindow ?x)) with (current x).
    rewrite !current_update.
    match goal with |- context [current ?y] =>
      change (current y) with (current st) end.
    destruct (current st); [|discriminate]. cbn. intros [= <-]. discriminate.
  - unfold userClosesWindow. destruct (recordingWindow st); exact H.
Qed.

(** X10: the service never holds a completed session: in every state it
    can reach, the session [getCurrentSession] answers, if any, has status
    [recording], [stopped] or [processing]. *)
Theorem current_session_not_completed ops s :
  current (run ops initial) = Some s ->
  status s = recording \/ status s = stopped \/ status s = processing.
Proof.
  intros Hs.
  pose proof (run_preserves holds_open_session holds_open_step ops initial) as H.
  assert (Hn : status s <> completed).
  { apply (H (fun s0 Hs0 => ltac:(discriminate Hs0)) s Hs). }
  destruct (status s); auto. now destruct Hn.
Qed.

Lemma current_session_not_completed_witness :
  stopped = recording \/ stopped = stopped \/ stopped = processing.
Proof.
  exact (current_session_not_completed
           [OpStart 1000 "2024-01-01T00:00:00.000Z" true "https://example.com" "u1";
            OpPause]
           (RecordingSession.mk "session_1000" "u1" "https://example.com"
              stopped "2024-01-01T00:00:00.000Z" None [] [] None)
           eq_refl).
Defined.

Lemma update_other f st r :
  currentSession st <> Some r ->
  sessions (update_current f st) !! r = sessions st !! r.
Proof.
  intros H. unfold update_current.
  destruct (currentSession st) as [c|]; [|reflexivity].
  cbn. apply list_lookup_alter_ne. congruence.
Qed.

Lemma update_released f st r :
  released r st ->
  released r (update_current f st)
  /\ sessions (update_current f st) !! r = sessions st !! r.
Proof.
  intros [Hl Hc]. destruct (update_keeps f st) as (_ & _ & _ & Hc' & _).
  repeat split.
  - now rewrite update_length.
  - now rewrite Hc'.
  - now apply update_other.
Qed.

Lemma stopRecording_released iso st r :
  released r st ->
  released r (snd (stopRecording iso st))
  /\ sessions (snd (stopRecording iso st)) !! r = sessions st !! r.
Proof.
  intros H. unfold stopRecording.
  destruct (negb (isRecording st) || is_null (currentSession st)); [now split|].
  cbn [snd].
  destruct (update_released (set_status processing) (with_isRecording false st) r H)
    as [H1 E1].
  destruct (update_released (set_endTime iso) _ r H1) as [[Hl Hc] E2].
  unfold released. rewrite sessions_save.
  match goal with |- context [saveSessionToDatabase ?y] =>
    destruct (save_keeps y) as (_ & _ & _ & -> & _) end.
  cbn [closeRecordingWindow sessions currentSession].
  repeat split; [exact Hl | exact Hc |]. now rewrite E2, E1.
Qed.

Lemma onMessage_released m st r :
  released r st ->
  released r (onMessage m st) /\ sessions (onMessage m st) !! r = sessions st !! r.
Proof.
  intros H. unfold onMessage, recordInteraction, recordApiCall.
  destruct (currentSession st) eqn:E; [|now split].
  destruct (negb (isRecording st)); [now split|].
  destruct m; [| |now split].
  - apply (update_released (push_interaction data) st r H).
  - apply (update_released (push_apiCall data) st r H).
Qed.

Lemma released_step op st r :
  released r st ->
  released r (step op st) /\ sessions (step op st) !! r = sessions st !! r.
Proof.
  intros H. destruct op; cbn [step].
  - unfold startRecording. destruct (isRecording st); [now split|].
    cbn [snd]. destruct H as [Hl Hc]. unfold released.
    cbn [with_isRecording sessions currentSession].
    rewrite sessions_open, sessions_save. cbn [sessions].
    assert (Hcur : forall o x, currentSession (openRecordingWindow o x)
                               = currentSession x) by now intros [] x.
    rewrite Hcur.
    match goal with |- context [saveSessionToDatabase ?y] =>
      destruct (save_keeps y) as (_ & _ & _ & -> & _) end.
    cbn [currentSession]. rewrite length_app. cbn [length].
    repeat split; [lia | intros [= E]; lia | now apply lookup_app_l].
  - now apply stopRecording_released.
  - unfold pauseRecording. destruct (currentSession st) eqn:E; [|now split].
    apply (update_released (set_status stopped) st r H).
  - unfold resumeRecording. destruct (currentSession st) eqn:E; [|now split].
    apply (update_released (set_status recording) st r H).
  - unfold completeSession. destruct (current st); [|now split].
    destruct (String.eqb _ _); [|now split].
    destruct (update_released (set_status completed) st r H) as [[Hl Hc] E].
    unfold released. cbn [sessions currentSession]. rewrite sessions_save.
    repeat split; [exact Hl | discriminate | exact E].
  - unfold recordInteraction. destruct (currentSession st) eqn:E; [|now split].
    apply (update_released (push_interaction i) st r H).
  - unfold recordApiCall. destruct (currentSession st) eqn:E; [|now split].
    apply (update_released (push_apiCall a) st r H).
  - unfold dispatchMessage. induction (listeners st) as [|n [IH1 IH2]];
      [now split|].
    change (Nat.iter (S n) (onMessage m) st)
      with (onMessage m (Nat.iter n (onMessage m) st)).
    destruct (onMessage_released m _ r IH1) as [G1 G2].
    split; [exact G1 | now rewrite G2].
  - unfold checkWindow. destruct (intervals st); [now split|].
    destruct (recordingWindow st); [|now split].
    destruct (windows st !! _) as [[[]]|]; try now split.
    match goal with |- context [stopRecording iso ?y] =>
      apply (stopRecording_released iso y r H) end.
  - unfold userClosesWindow. destruct (recordingWindow st); now split.
Qed.

(** X11: only the current session is ever written.  A session that exists
    and is not the current one (it was completed, or replaced by a later
    [startRecording]) never becomes current again and is never modified:
    after any run of calls the store holds the very same object under its
    reference. *)
Theorem released_session_frozen ops st r :
  r < length (sessions st) -> currentSession st <> Some r ->
  sessions (run ops st) !! r = sessions st !! r
  /\ currentSession (run ops st) <> Some r.
Proof.
  intros Hl Hc.
  assert (G : released r (run ops st)
              /\ sessions (run ops st) !! r = sessions st !! r).
  { apply (run_preserves
             (fun x => released r x /\ sessions x !! r = sessions st !! r)).
    - intros op x [Hx Ex]. destruct (released_step op x r Hx) as [H1 H2].
      split; [exact H1 | now rewrite H2].
    - now repeat split. }
  destruct G as [[_ Hc'] E]. now split.
Qed.

Lemma released_session_frozen_witness :
  sessions (run [OpMessage (INTERACTION_RECORDED Scenario.buy_click);
                 OpStop "t3"; OpComplete "session_2000"; OpResume]
              (snd (startRecording 2000 "t2" true "https://example.org" "u2"
                      Scenario.paused))) !! 0
  = sessions Scenario.paused !! 0.
Proof.
  apply (released_session_frozen
           [OpMessage (INTERACTION_RECORDED Scenario.buy_click);
            OpStop "t3"; OpComplete "session_2000"; OpResume]
           (snd (startRecording 2000 "t2" true "https://example.org" "u2"
                   Scenario.paused)) 0).
  - cbn. lia.
  - discriminate.
Defined.

End ControllerMore.

(** ** Further properties of the response parser *)

Section ParserMore.

Import TestCaseGenerator.

Lemma trimEnd_cons c s :
  Js.is_space c = false -> Js.trimEnd (String c s) = String c (Js.trimEnd s).
Proof. intros H. cbn [Js.trimEnd]. now rewrite H. Qed.

(** A trimmed text that is not empty starts with a character that is not
    white space. *)
Lemma trim_head s :
  Js.truthy (Js.trim s) = true ->
  exists c t, Js.trim s = String c t /\ Js.is_space c = false.
Proof.
  unfold Js.trim. induction s as [|c s IH]; [discriminate|].
  cbn [Js.trimStart]. destruct (Js.is_space c) eqn:E; [exact IH|].
  intros _. rewrite (trimEnd_cons c s E). eauto.
Qed.

Lemma trim_of_head c t :
  Js.is_space c = false -> exists t', Js.trim (String c t) = String c t'.
Proof.
  intros H. unfold Js.trim. cbn [Js.trimStart]. rewrite H.
  rewrite (trimEnd_cons c t H). eauto.
Qed.

Lemma first_line_head c t :
  Js.is_space c = false ->
  exists p, hd EmptyString (Js.split (ascii_of_nat 10) (String c t)) = String c p.
Proof.
  intros H. cbn [Js.split].
  destruct (Ascii.eqb_spec c (ascii_of_nat 10)) as [->|_]; [discriminate H|].
  destruct (Js.split (ascii_of_nat 10) t); cbn; eauto.
Qed.

Lemma parsed_title_nonempty now iso sessionId format index section :
  Js.truthy (Js.trim section) = true ->
  TestCase.title (section_case now iso sessionId format index section)
  <> EmptyString.
Proof.
  intros H. destruct (trim_head section H) as (c & t & Ht & Hc).
  unfold section_case. cbn [TestCase.title]. rewrite Ht.
  destruct (first_line_head c t Hc) as (p & ->).
  destruct (trim_of_head c p Hc) as (t' & ->). discriminate.
Qed.

(** X12: the title of a parsed test case is always the first line of its
    trimmed section, trimmed, and is never empty; the numbered default
    "Test Case N" of the source is never used. *)
Theorem parsed_title_is_first_line now iso sessionId format index section :
  Js.truthy (Js.trim section) = true ->
  TestCase.title (section_case now iso sessionId format index section)
  = Js.trim (hd EmptyString (Js.split (ascii_of_nat 10) (Js.trim section)))
  /\ TestCase.title (section_case now iso sessionId format index section)
     <> EmptyString.
Proof.
  intros H. destruct (trim_head section H) as (c & t & Ht & Hc).
  unfold section_case. cbn [TestCase.title]. rewrite Ht.
  destruct (first_line_head c t Hc) as (p & ->).
  destruct (trim_of_head c p Hc) as (t' & ->).
  split; [reflexivity | discriminate].
Qed.

Lemma parsed_title_is_first_line_witness :
  TestCase.title (section_case 5 "t" "s1" "gherkin" 0 "  Login works
Given a user ")
  = "Login works".
Proof.
  assert (H := proj1 (parsed_title_is_first_line 5 "t" "s1" "gherkin" 0
                        "  Login works
Given a user " eq_refl)).
  exact H.
Defined.

Lemma or_else_nonempty s d : d <> EmptyString -> Js.or_else s d <> EmptyString.
Proof.
  intros Hd. unfold Js.or_else. destruct s; cbn; [exact Hd | discriminate].
Qed.

Lemma extractDescription_nonempty content :
  extractDescription content <> EmptyString.
Proof.
  unfold extractDescription. destruct (List.find _ _);
    [apply or_else_nonempty|]; discriminate.
Qed.

Lemma cases_from_fields now iso sessionId format index secs :
  Forall (fun tc => TestCase.sessionId tc = sessionId
                    /\ TestCase.format tc = format
                    /\ TestCase.title tc <> EmptyString
                    /\ TestCase.description tc <> EmptyString)
         (cases_from now iso sessionId format index secs).
Proof.
  revert index. induction secs as [|sec secs IH]; intros index; [constructor|].
  cbn [cases_from]. destruct (Js.truthy (Js.trim sec)) eqn:E; [|apply IH].
  constructor; [|apply IH]. repeat split.
  - apply (parsed_title_nonempty _ _ _ _ _ _ E).
  - apply extractDescription_nonempty.
Qed.

(** X13: every test case [parseAIResponse] returns, parsed or default,
    carries the session id and the format it was called with, and has a
    title and a description that are not empty. *)
Theorem parsed_cases_well_formed now iso now_end iso_end
    response sessionId format :
  Forall (fun tc => TestCase.sessionId tc = sessionId
                    /\ TestCase.format tc = format
                    /\ TestCase.title tc <> EmptyString
                    /\ TestCase.description tc <> EmptyString)
         (parseAIResponse now iso now_end iso_end response sessionId format).
Proof.
  unfold parseAIResponse.
  pose proof (cases_from_fields now iso sessionId format 0 (sections response))
    as H.
  destruct (length _ =? 0); [|exact H].
  apply Forall_app. split; [exact H|].
  constructor; [|constructor]. repeat split; discriminate.
Qed.

Lemma no_marker_here s :
  Js.includes "Test Case " s = false -> Js.includes "Scenario:" s = false ->
  Js.includes "Feature:" s = false -> match_marker s = None.
Proof.
  intros H1 H2 H3. unfold match_marker.
  destruct s as [|c s]; cbn [Js.includes] in *;
    apply orb_false_iff in H1 as [-> _], H2 as [-> _], H3 as [-> _];
    reflexivity.
Qed.

Lemma split_markers_unmarked s :
  Js.includes "Test Case " s = false -> Js.includes "Scenario:" s = false ->
  Js.includes "Feature:" s = false -> split_markers s = [s].
Proof.
  unfold split_markers. induction s as [|c s IH]; intros H1 H2 H3;
    [reflexivity|].
  cbn [split_markers_from]. rewrite (no_marker_here _ H1 H2 H3).
  cbn [Js.includes] in H1, H2, H3.
  apply orb_false_iff in H1 as [_ H1], H2 as [_ H2], H3 as [_ H3].
  now rewrite (IH H1 H2 H3).
Qed.

(** X14: a response in which none of the texts "Test Case ", "Scenario:"
    and "Feature:" occurs, and which is not blank, gives exactly one test
    case: its content is the whole response, trimmed, and its steps and
    description are extracted from the whole response. *)
Theorem unmarked_response_single_case now iso now_end iso_end
    response sessionId format :
  Js.includes "Test Case " response = false ->
  Js.includes "Scenario:" response = false ->
  Js.includes "Feature:" response = false ->
  Js.truthy (Js.trim response) = true ->
  exists tc,
    parseAIResponse now iso now_end iso_end response sessionId format = [tc]
    /\ TestCase.content tc = Js.trim response
    /\ TestCase.steps tc = extractSteps response
    /\ TestCase.description tc = extractDescription response
    /\ TestCase.id tc
       = ("test_" ++ sessionId ++ "_" ++ Js.of_N (now 0) ++ "_0")%string.
Proof.
  intros H1 H2 H3 Ht. unfold parseAIResponse, sections.
  rewrite (split_markers_unmarked _ H1 H2 H3).
  cbn [List.filter]. rewrite Ht. cbn [cases_from]. rewrite Ht.
  cbn [length Nat.eqb]. eexists. split; [reflexivity|]. now repeat split.
Qed.

Lemma unmarked_response_single_case_witness :
  exists tc,
    parseAIResponse (fun _ => 5%N) (fun _ => "t") 6%N "t'"
      " 1. Click the button " "s1" "pytest" = [tc]
    /\ TestCase.content tc = "1. Click the button"
    /\ TestCase.steps tc = extractSteps " 1. Click the button "
    /\ TestCase.description tc = extractDescription " 1. Click the button "
    /\ TestCase.id tc = "test_s1_5_0".
Proof.
  exact (unmarked_response_single_case (fun _ => 5%N) (fun _ => "t") 6%N "t'"
           " 1. Click the button " "s1" "pytest"
           eq_refl eq_refl eq_refl eq_refl).
Defined.

Lemma steps_from_parsed index lines :
  Forall parsed_step (steps_from index lines).
Proof.
  revert index. induction lines as [|line lines IH]; intros index;
    [constructor|].
  cbn [steps_from]. destruct (step_marker (Js.trim line)) eqn:E; [|apply IH].
  constructor; [|apply IH]. now repeat split.
Qed.

Lemma cases_from_steps now iso sessionId format index secs :
  Forall (fun tc => Forall parsed_step (TestCase.steps tc))
         (cases_from now iso sessionId format index secs).
Proof.
  revert index. induction secs as [|sec secs IH]; intros index; [constructor|].
  cbn [cases_from]. destruct (Js.truthy (Js.trim sec)); [|apply IH].
  constructor; [|apply IH]. apply steps_from_parsed.
Qed.

Lemma parsed_step_clause step :
  parsed_step step ->
  bare_clause step (FileDownloadService.gherkin_clause step).
Proof.
  intros (He & Hv & _). unfold bare_clause, FileDownloadService.gherkin_clause,
    FileDownloadService.value_or.
  rewrite He, Hv.
  destruct (Js.includes "click" _); [now left|].
  destruct (_ || _); [right; now left|].
  destruct (Js.includes "navigate" _); [right; right; now left|].
  right; right; now right.
Qed.

(** X15: the steps the parser makes carry no element and no value, so the
    Gherkin rendering of any test case that [parseAIResponse] returns
    never names a selector or a typed value: each of its step clauses is
    [When I click on ""], [When I enter "test data" in ""],
    [Given I navigate to "the page"] or [And I] followed by the lower-cased
    action. *)
Theorem parsed_steps_render_bare now iso now_end iso_end
    response sessionId format :
  Forall (fun tc =>
            Forall (fun step =>
                      parsed_step step
                      /\ bare_clause step (FileDownloadService.gherkin_clause step))
                   (TestCase.steps tc))
         (parseAIResponse now iso now_end iso_end response sessionId format).
Proof.
  assert (G : forall l, Forall parsed_step l ->
              Forall (fun step => parsed_step step
                        /\ bare_clause step
                             (FileDownloadService.gherkin_clause step)) l).
  { intros l Hl. eapply Forall_impl; [exact Hl|]. cbn. intros step Hp.
    split; [exact Hp | now apply parsed_step_clause]. }
  unfold parseAIResponse.
  pose proof (cases_from_steps now iso sessionId format 0 (sections response))
    as H.
  assert (H' : Forall (fun tc => Forall (fun step => parsed_step step
                        /\ bare_clause step
                             (FileDownloadService.gherkin_clause step))
                        (TestCase.steps tc))
                 (cases_from now iso sessionId format 0 (sections response))).
  { eapply Forall_impl; [exact H|]. cbn. intros tc. apply G. }
  destruct (length _ =? 0); [|exact H'].
  apply Forall_app. split; [exact H'|]. constructor; constructor.
Qed.

End ParserMore.

(** ** Further properties of the format renderer *)

Section RendererMore.

Import FileDownloadService.
Import Js (cat, nl, dq).

Lemma all_chars_app p a b :
  all_chars p (a ++ b)%string = all_chars p a && all_chars p b.
Proof.
  induction a as [|c a IH]; cbn; [reflexivity|].
  now rewrite IH, andb_assoc.
Qed.

Lemma all_chars_weaken (p q : ascii -> bool) s :
  (forall c, p c = true -> q c = true) ->
  all_chars p s = true -> all_chars q s = true.
Proof.
  intros Hpq. induction s as [|c s IH]; cbn; [reflexivity|].
  intros H. apply andb_true_iff in H as [Hc Hs].
  now rewrite (Hpq c Hc), IH.
Qed.

Lemma filter_all_chars p s : all_chars p (Js.filter p s) = true.
Proof.
  induction s as [|c s IH]; cbn; [reflexivity|].
  destruct (p c) eqn:E; cbn; [now rewrite E|exact IH].
Qed.

Lemma toSnakeCase_chars s : all_chars snake_char (toSnakeCase s) = true.
Proof. unfold toSnakeCase, strip. apply (filter_all_chars snake_char). Qed.

(** X16: a file name is made of the characters a-z, 0-9, underscore and
    dot only, whatever the title and the format: it holds no path
    separator, no white space and no capital letter.  The part
    [toSnakeCase] derives from the title holds no dot either. *)
Theorem generateFilename_chars (tc : TestCase.t) :
  all_chars filename_char (generateFilename tc) = true
  /\ all_chars snake_char (toSnakeCase (TestCase.title tc)) = true.
Proof.
  split; [|apply toSnakeCase_chars].
  pose proof (all_chars_weaken snake_char filename_char _
                (fun c H => ltac:(unfold filename_char; now rewrite H))
                (toSnakeCase_chars (TestCase.title tc))) as Hb.
  unfold toSnakeCase in Hb. unfold generateFilename.
  destruct (String.eqb _ "pytest");
    [|destruct (String.eqb _ "selenium_bdd");
      [|destruct (String.eqb _ "gherkin")]];
    rewrite !cat_cons, !all_chars_app, Hb; reflexivity.
Qed.

(** A character that [toSnakeCase] lets through is left alone by every
    stage of it. *)
Lemma snake_char_fixed c :
  snake_char c = true ->
  Js.lower_char c = c /\ Js.is_space c = false.
Proof.
  destruct c as [[] [] [] [] [] [] [] []]; vm_compute; intros H;
    try discriminate H; now split.
Qed.

Lemma snake_fixed s :
  all_chars snake_char s = true ->
  Js.toLowerCase s = s
  /\ (forall b, Js.replace_ws_from b "_" s = s)
  /\ strip s = s.
Proof.
  unfold Js.toLowerCase, strip.
  induction s as [|c s IH]; [now repeat split|].
  cbn [all_chars Js.map Js.filter Js.replace_ws_from].
  intros H. apply andb_true_iff in H as [Hc Hs].
  destruct (IH Hs) as (I1 & I2 & I3).
  destruct (snake_char_fixed c Hc) as [L S].
  unfold snake_char in Hc. rewrite L, S, Hc, I1, I3. repeat split.
  intros b. now rewrite I2.
Qed.

(** X17: [toSnakeCase] is idempotent: applied to its own result it gives
    that result back, so a name that was derived once is stable. *)
Theorem toSnakeCase_idempotent s : toSnakeCase (toSnakeCase s) = toSnakeCase s.
Proof.
  destruct (snake_fixed (toSnakeCase s) (toSnakeCase_chars s)) as (H1 & H2 & H3).
  unfold toSnakeCase at 1. unfold Js.replace_ws. now rewrite H1, H2, H3.
Qed.

Lemma remove_ws_chars b s :
  all_chars not_space (Js.replace_ws_from b "" s) = true.
Proof.
  revert b. induction s as [|c s IH]; intros b; cbn; [reflexivity|].
  destruct (Js.is_space c) eqn:E.
  - destruct b; apply IH.
  - cbn. unfold not_space at 1. rewrite E. apply IH.
Qed.

Lemma remove_ws_fixed b s :
  all_chars not_space s = true -> Js.replace_ws_from b "" s = s.
Proof.
  revert b. induction s as [|c s IH]; intros b; cbn; [reflexivity|].
  intros H. apply andb_true_iff in H as [Hc Hs].
  unfold not_space in Hc. apply negb_true_iff in Hc. rewrite Hc.
  now rewrite IH.
Qed.

Lemma remove_ws_skip b b' s :
  Js.replace_ws_from b "" s = Js.replace_ws_from b' "" s.
Proof.
  destruct s as [|c s]; cbn; [reflexivity|].
  destruct (Js.is_space c); [|reflexivity]. now destruct b, b'.
Qed.

Lemma upper_char_facts c :
  Js.is_lower (Js.upper_char c) = false
  /\ Js.upper_char (Js.upper_char c) = Js.upper_char c
  /\ Js.is_word (Js.upper_char c) = Js.is_word c
  /\ Js.is_space (Js.upper_char c) = Js.is_space c
  /\ (Js.is_lower c = false -> Js.upper_char c = c)
  /\ (Js.is_lower c = true -> Js.is_word c = true /\ Js.is_upper c = false)
  /\ (Js.is_space c = true -> Js.is_word c = false /\ Js.is_upper c = false).
Proof.
  destruct c as [[] [] [] [] [] [] [] []]; vm_compute;
    repeat match goal with
           | |- _ /\ _ => split
           | |- _ -> _ => intro
           end;
    try discriminate; reflexivity.
Qed.

(** Capitalising what [toPascalCase] produced changes nothing, as long as
    a position that was inside a word before is inside a word now. *)
Lemma capitalize_fixed s : forall start prev start' prev',
  (start = false -> prev = true -> start' = false /\ prev' = true) ->
  capitalize_from start' prev'
    (Js.replace_ws_from false "" (capitalize_from start prev s))
  = Js.replace_ws_from false "" (capitalize_from start prev s).
Proof.
  induction s as [|c s IH]; intros start prev start' prev' Hctx; [reflexivity|].
  cbn [capitalize_from]. cbv zeta.
  set (matched := (start && Js.is_word c) || Js.is_upper c
                  || (xorb prev (Js.is_word c) && Js.is_word c)).
  set (c1 := if matched then Js.upper_char c else c).
  destruct (upper_char_facts c) as (U1 & U2 & U3 & U4 & U5 & U6 & U7).
  assert (Hw : Js.is_word c1 = Js.is_word c)
    by (unfold c1; destruct matched; [exact U3 | reflexivity]).
  assert (Hsp : Js.is_space c1 = Js.is_space c)
    by (unfold c1; destruct matched; [exact U4 | reflexivity]).
  cbn [Js.replace_ws_from]. rewrite Hsp.
  destruct (Js.is_space c) eqn:Esp.
  - cbn [append]. rewrite (remove_ws_skip true false).
    destruct (U7 eq_refl) as [Wc _]. rewrite Wc.
    apply IH. intros _ Hp. discriminate Hp.
  - cbn [capitalize_from]. cbv zeta. f_equal.
    + destruct (Js.is_lower c1) eqn:El.
      * assert (Hm : matched = false).
        { destruct matched eqn:Em; [|reflexivity].
          unfold c1 in El. rewrite U1 in El. discriminate El. }
        assert (Hc1 : c1 = c) by (unfold c1; now rewrite Hm).
        rewrite Hc1 in *. destruct (U6 El) as [Wc Uc].
        unfold matched in Hm. rewrite Wc, Uc in Hm.
        destruct start; [discriminate Hm|]. destruct prev; [|discriminate Hm].
        destruct (Hctx eq_refl eq_refl) as [-> ->].
        rewrite Wc, Uc. reflexivity.
      * destruct (upper_char_facts c1) as (_ & _ & _ & _ & V5 & _).
        rewrite (V5 El).
        match goal with |- (if ?b then _ else _) = _ => now destruct b end.
    + rewrite Hw. apply IH. intros _ Hp. split; [reflexivity | exact Hp].
Qed.

(** X18: [toPascalCase] gives a text with no white space in it, and is
    idempotent: the class name derived from a title is its own class
    name. *)
Theorem toPascalCase_stable s :
  all_chars not_space (toPascalCase s) = true
  /\ toPascalCase (toPascalCase s) = toPascalCase s.
Proof.
  split; [apply remove_ws_chars|].
  unfold toPascalCase at 1. unfold toPascalCase, Js.replace_ws.
  rewrite capitalize_fixed by (intros H; discriminate H).
  apply remove_ws_fixed, remove_ws_chars.
Qed.

Lemma prefix_split p s :
  String.prefix p s = true -> exists rest, s = (p ++ rest)%string.
Proof.
  revert s. induction p as [|a p IH]; intros s H; [now exists s|].
  destruct s as [|b s]; [discriminate H|]. cbn in H.
  destruct (ascii_dec a b) as [->|_]; [|discriminate H].
  destruct (IH s H) as [rest ->]. now exists rest.
Qed.

Lemma prefix_append p rest : String.prefix p (p ++ rest) = true.
Proof.
  induction p as [|a p IH]; cbn; [now destruct rest|].
  destruct (ascii_dec a a); [exact IH | contradiction].
Qed.

Lemma prefix_append_r p m tail :
  String.prefix p m = true -> String.prefix p (m ++ tail) = true.
Proof.
  intros H. destruct (prefix_split p m H) as [rest ->].
  rewrite append_assoc. apply prefix_append.
Qed.

Lemma drop_append p rest : Js.drop (String.length p) (p ++ rest) = rest.
Proof. induction p as [|a p IH]; cbn; [now destruct rest | exact IH]. Qed.

Lemma substring_append p rest n :
  String.substring 0 (String.length p + n) (p ++ rest)
  = (p ++ String.substring 0 n rest)%string.
Proof. induction p as [|a p IH]; cbn; [reflexivity | now rewrite IH]. Qed.

Lemma span_taken q rest :
  all_chars q (String.substring 0 (TestCaseGenerator.span q rest) rest) = true
  /\ String.prefix (String.substring 0 (TestCaseGenerator.span q rest) rest) rest
     = true.
Proof.
  induction rest as [|c rest [IH1 IH2]]; cbn; [now split|].
  destruct (q c) eqn:E; cbn; [|now split].
  rewrite E, IH1. split; [reflexivity|].
  destruct (ascii_dec c c); [exact IH2 | contradiction].
Qed.

Lemma prefix_under p a b :
  String.prefix a b = true -> String.prefix (p ++ a) (p ++ b) = true.
Proof.
  intros H. induction p as [|x p IH]; cbn; [exact H|].
  destruct (ascii_dec x x); [exact IH | contradiction].
Qed.

Lemma includes_prefix m s : String.prefix m s = true -> Js.includes m s = true.
Proof.
  intros H. destruct s; cbn [Js.includes]; unfold Js.startsWith; now rewrite H.
Qed.

Lemma includes_cons m c s :
  Js.includes m s = true -> Js.includes m (String c s) = true.
Proof. intros H. cbn [Js.includes]. rewrite H. apply orb_true_r. Qed.

Lemma includes_of_prefix p m s :
  String.prefix p m = true -> Js.includes m s = true -> Js.includes p s = true.
Proof.
  intros Hp. induction s as [|c s IH]; cbn [Js.includes]; unfold Js.startsWith;
    intros H; apply orb_true_iff in H as [H|H]; try discriminate H.
  - destruct (prefix_split m _ H) as [tail E].
    apply orb_true_iff. left. rewrite E. now apply prefix_append_r.
  - destruct (prefix_split m _ H) as [tail E].
    apply orb_true_iff. left. rewrite E. now apply prefix_append_r.
  - apply orb_true_iff. right. now apply IH.
Qed.

(** What a match of the URL pattern at the start of [s] looks like. *)
Lemma url_at_match s m :
  url_at s = Some m ->
  (String.prefix "https://" m = true \/ String.prefix "http://" m = true)
  /\ all_chars not_space m = true
  /\ String.prefix m s = true.
Proof.
  assert (G : forall scheme,
             all_chars not_space scheme = true ->
             (if Js.startsWith scheme s
              then let n := TestCaseGenerator.span (fun c => negb (Js.is_space c))
                              (Js.drop (String.length scheme) s) in
                   if 0 <? n
                   then Some (String.substring 0 (String.length scheme + n) s)
                   else None
              else None) = Some m ->
             String.prefix scheme m = true
             /\ all_chars not_space m = true /\ String.prefix m s = true).
  { intros scheme Hsch. unfold Js.startsWith.
    destruct (String.prefix scheme s) eqn:E; [|discriminate].
    destruct (prefix_split scheme s E) as [rest ->]. cbv zeta.
    rewrite drop_append. destruct (0 <? _); [|discriminate].
    rewrite substring_append. intros [= <-].
    destruct (span_taken (fun c => negb (Js.is_space c)) rest) as [T1 T2].
    repeat split.
    - apply prefix_append.
    - rewrite all_chars_app, Hsch. exact T1.
    - now apply prefix_under. }
  unfold url_at.
  match goal with |- match ?a with _ => _ end = _ -> _ =>
    destruct a as [m1|] eqn:E1 end.
  - intros [= <-]. destruct (G "https://" eq_refl E1) as (H1 & H2 & H3). auto.
  - intros E2. destruct (G "http://" eq_refl E2) as (H1 & H2 & H3). auto.
Qed.

Lemma first_url_match s m :
  first_url s = Some m ->
  (String.prefix "https://" m = true \/ String.prefix "http://" m = true)
  /\ all_chars not_space m = true
  /\ Js.includes m s = true.
Proof.
  induction s as [|c s IH]; cbn [first_url].
  - destruct (url_at "") eqn:E; [|discriminate]. intros [= <-].
    destruct (url_at_match _ _ E) as (H1 & H2 & H3).
    repeat split; auto. now apply includes_prefix.
  - destruct (url_at (String c s)) eqn:E.
    + intros [= <-]. destruct (url_at_match _ _ E) as (H1 & H2 & H3).
      repeat split; auto. now apply includes_prefix.
    + intros H. destruct (IH H) as (H1 & H2 & H3).
      repeat split; auto. now apply includes_cons.
Qed.

(** X19: the URL written into the generated code is never empty, holds no
    white space and starts with "http://" or "https://"; it is the default
    "https://example.com" or a piece of the content, and it is the default
    whenever "http" does not occur in the content. *)
Theorem extractUrlFromContent_shape content :
  let url := extractUrlFromContent content in
  url <> EmptyString
  /\ all_chars not_space url = true
  /\ (String.prefix "https://" url = true \/ String.prefix "http://" url = true)
  /\ (url = "https://example.com" \/ Js.includes url content = true)
  /\ (Js.includes "http" content = false -> url = "https://example.com").
Proof.
  cbv zeta. unfold extractUrlFromContent.
  destruct (first_url content) as [m|] eqn:E.
  - destruct (first_url_match _ _ E) as (H1 & H2 & H3).
    split; [|split; [|split; [|split]]]; auto.
    + intros ->. destruct H1 as [H1|H1]; discriminate H1.
    + intros Hno. exfalso.
      assert (Hp : String.prefix "http" m = true).
      { destruct H1 as [H1|H1]; destruct (prefix_split _ _ H1) as [rest ->];
          reflexivity. }
      rewrite (includes_of_prefix "http" m content Hp H3) in Hno.
      discriminate Hno.
  - split; [|split; [|split; [|split]]]; auto; discriminate.
Qed.

Lemma extractUrlFromContent_shape_witness :
  extractUrlFromContent "click the first link" = "https://example.com".
Proof.
  exact (proj2 (proj2 (proj2 (proj2
           (extractUrlFromContent_shape "click the first link")))) eq_refl).
Defined.

End RendererMore.

(** ** Further properties of the capture script *)

Section CaptureMore.

Import CaptureScript.







End CaptureMore.

Section AgentMore.

Import CaptureAgent.

Lemma substring_prefix n s : String.prefix (String.substring 0 n s) s = true.
Proof.
  revert s. induction n as [|n IH]; intros [|c s]; cbn; try reflexivity.
  destruct (ascii_dec c c); [apply IH | contradiction].
Qed.

Lemma substring_length n s : String.length (String.substring 0 n s) <= n.
Proof.
  revert s. induction n as [|n IH]; intros [|c s]; cbn; try lia.
  specialize (IH s). lia.
Qed.

Lemma substring_all n s :
  String.length s <= n -> String.substring 0 n s = s.
Proof.
  revert s. induction n as [|n IH]; intros [|c s]; cbn; try reflexivity;
    try lia.
  intros H. rewrite IH; [reflexivity | lia].
Qed.

(** X21: the text recorded for a click is the start of the target's text
    content, cut at 100 characters: it is never longer than 100, it is the
    whole text when that has at most 100 characters, and it is empty when
    the target has no text content. *)
Theorem click_value_truncated (target : Target) :
  String.length (click_value target) <= 100
  /\ (forall text, textContent target = Some text ->
        String.prefix (click_value target) text = true
        /\ (String.length text <= 100 -> click_value target = text))
  /\ (textContent target = None -> click_value target = EmptyString).
Proof.
  unfold click_value. destruct (textContent target) as [text|].
  - assert (E : forall x, Js.or_else x EmptyString = x) by now intros [].
    rewrite E. split; [apply substring_length|]. split; [|discriminate].
    intros t [= <-]. split; [apply substring_prefix | apply substring_all].
  - split; [cbn; lia|]. split; [discriminate | reflexivity].
Qed.

Lemma click_value_truncated_witness :
  String.prefix
    (click_value (mkTarget (CaptureScript.Detached "BUTTON" "buy"
                 (CaptureScript.ClassString ""))
       (Some "Buy now") ""))
    "Buy now" = true
  /\ click_value (mkTarget (CaptureScript.Detached "BUTTON" "buy"
                 (CaptureScript.ClassString ""))
       (Some "Buy now") "")
     = "Buy now".
Proof.
  destruct (proj1 (proj2 (click_value_truncated
              (mkTarget (CaptureScript.Detached "BUTTON" "buy"
                 (CaptureScript.ClassString ""))
       (Some "Buy now") "")))
              "Buy now" eq_refl) as [H1 H2].
  split; [exact H1 | apply H2; cbn; lia].
Defined.

(** X23: a change of location is reported once.  A poll that sees a
    location different from the last one seen posts one navigation
    interaction carrying it; polls that follow and see that same location
    post nothing and change nothing. *)
Theorem navigation_reported_once href iso iso' st :
  href <> currentUrl st ->
  exists i,
    fst (handle (Poll href iso) st) = Some i
    /\ Interaction.type i = navigation
    /\ Interaction.value i = Some href
    /\ Interaction.selector i = "body"
    /\ handle (Poll href iso') (snd (handle (Poll href iso) st))
       = (None, snd (handle (Poll href iso) st)).
Proof.
  intros H. apply String.eqb_neq in H. cbn [handle]. rewrite H. cbn [negb].
  eexists. split; [reflexivity|]. cbn [fst snd handle currentUrl].
  rewrite String.eqb_refl. cbn. now repeat split.
Qed.

Lemma navigation_reported_once_witness :
  exists i,
    fst (handle (Poll "https://example.com/cart" "t1")
           (loaded "https://example.com")) = Some i
    /\ Interaction.type i = navigation
    /\ Interaction.value i = Some "https://example.com/cart"
    /\ Interaction.selector i = "body"
    /\ handle (Poll "https://example.com/cart" "t2")
         (snd (handle (Poll "https://example.com/cart" "t1")
                 (loaded "https://example.com")))
       = (None, snd (handle (Poll "https://example.com/cart" "t1")
                       (loaded "https://example.com"))).
Proof.
  apply (navigation_reported_once "https://example.com/cart" "t1" "t2"
           (loaded "https://example.com")).
  discriminate.
Defined.

End AgentMore.

(** ** What the parser keeps of the response *)

Section ParserContent.

Import TestCaseGenerator.

(** [a] occurs in [b] exactly when [b] is [a] with something before and
    something after it. *)
Lemma includes_within a b :
  Js.includes a b = true <-> exists pre post, b = (pre ++ a ++ post)%string.
Proof.
  split.
  - induction b as [|c b IH]; cbn [Js.includes]; unfold Js.startsWith;
      intros H; apply orb_true_iff in H as [H|H]; try discriminate H.
    + destruct (prefix_split _ _ H) as [post E]. exists EmptyString, post.
      exact E.
    + destruct (prefix_split _ _ H) as [post E]. exists EmptyString, post.
      exact E.
    + destruct (IH H) as (pre & post & ->). now exists (String c pre), post.
  - intros (pre & post & ->). induction pre as [|c pre IH].
    + change (Js.includes a (a ++ post) = true).
      apply includes_prefix, prefix_append.
    + apply includes_cons, IH.
Qed.

Lemma within_trans a b c :
  Js.includes a b = true -> Js.includes b c = true -> Js.includes a c = true.
Proof.
  intros H1 H2. apply includes_within in H1 as (p1 & q1 & ->).
  apply includes_within in H2 as (p2 & q2 & ->).
  apply includes_within. exists (p2 ++ p1)%string, (q1 ++ q2)%string.
  now rewrite !append_assoc.
Qed.

Lemma trimStart_suffix s : exists pre, s = (pre ++ Js.trimStart s)%string.
Proof.
  induction s as [|c s [pre IH]]; [now exists EmptyString|].
  cbn [Js.trimStart]. destruct (Js.is_space c).
  - exists (String c pre). cbn. now rewrite <- IH.
  - now exists EmptyString.
Qed.

Lemma trimEnd_prefix s : exists post, s = (Js.trimEnd s ++ post)%string.
Proof.
  induction s as [|c s [post IH]]; [now exists EmptyString|].
  cbn [Js.trimEnd]. destruct (_ && _).
  - now exists (String c s).
  - exists post. cbn. now rewrite <- IH.
Qed.

Lemma trim_within s : Js.includes (Js.trim s) s = true.
Proof.
  apply includes_within. unfold Js.trim.
  destruct (trimStart_suffix s) as [pre E].
  destruct (trimEnd_prefix (Js.trimStart s)) as [post E'].
  exists pre, post. now rewrite <- E', <- E.
Qed.

(** Every piece of the split occurs in the text that was split, and while
    no marker is being passed over the piece being read starts the text. *)
Lemma split_markers_within s :
  forall skip,
    Forall (fun p => Js.includes p s = true) (split_markers_from skip s)
    /\ (skip = 0 ->
        exists p rest,
          split_markers_from 0 s = p :: rest /\ String.prefix p s = true).
Proof.
  assert (Up : forall c t l, Forall (fun p => Js.includes p t = true) l ->
                 Forall (fun p => Js.includes p (String c t) = true) l).
  { intros c t l Hl. eapply Forall_impl; [exact Hl|]. cbn.
    intros p. apply includes_cons. }
  induction s as [|c s IH]; intros skip.
  - cbn. split; [repeat constructor | intros _; now exists EmptyString, []].
  - cbn [split_markers_from]. destruct skip as [|k].
    + assert (D : Forall (fun p => Js.includes p (String c s) = true)
                    match split_markers_from 0 s with
                    | [] => [String c EmptyString]
                    | piece :: rest => String c piece :: rest
                    end
                  /\ exists p rest,
                       match split_markers_from 0 s with
                       | [] => [String c EmptyString]
                       | piece :: rest => String c piece :: rest
                       end = p :: rest
                       /\ String.prefix p (String c s) = true).
      { destruct (IH 0) as [F G]. destruct (G eq_refl) as (p & rest & E & Hp).
        rewrite E in *. inversion F as [|? ? _ Fr]; subst.
        assert (Hcp : String.prefix (String c p) (String c s) = true).
        { cbn. destruct (ascii_dec c c); [exact Hp | contradiction]. }
        split.
        - constructor; [now apply includes_prefix | now apply Up].
        - now exists (String c p), rest. }
      destruct (match_marker (String c s)) as [[|k]|].
      * destruct D as [D1 D2]. split; [exact D1 | intros _; exact D2].
      * split.
        -- constructor; [reflexivity | apply Up, (IH k)].
        -- intros _. now exists EmptyString, (split_markers_from k s).
      * destruct D as [D1 D2]. split; [exact D1 | intros _; exact D2].
    + split; [apply Up, (IH k) | discriminate].
Qed.

Lemma sections_within response :
  Forall (fun sec => Js.includes sec response = true) (sections response).
Proof.
  unfold sections, split_markers.
  destruct (split_markers_within response 0) as [F _].
  apply List.Forall_forall. intros sec Hin.
  apply List.filter_In in Hin as [Hin _].
  exact (proj1 (List.Forall_forall _ _) F sec Hin).
Qed.

Lemma cases_from_content (P : string -> Prop) now iso sessionId format index secs :
  Forall (fun sec => P (Js.trim sec)) secs ->
  Forall (fun tc => P (TestCase.content tc))
         (cases_from now iso sessionId format index secs).
Proof.
  intros H. revert index. induction H as [|sec secs Hs _ IH]; intros index;
    [constructor|].
  cbn [cases_from]. destruct (Js.truthy (Js.trim sec)); [|apply IH].
  constructor; [exact Hs | apply IH].
Qed.

(** X24: the parser invents no content.  The content of every test case
    that [parseAIResponse] returns, parsed or default, occurs verbatim in
    the response. *)
Theorem parsed_content_from_response now iso now_end iso_end
    response sessionId format :
  Forall (fun tc => Js.includes (TestCase.content tc) response = true)
         (parseAIResponse now iso now_end iso_end response sessionId format).
Proof.
  assert (H : Forall (fun tc => Js.includes (TestCase.content tc) response = true)
                (cases_from now iso sessionId format 0 (sections response))).
  { apply (cases_from_content (fun t => Js.includes t response = true)).
    eapply Forall_impl; [apply sections_within|]. cbn.
    intros sec Hs. exact (within_trans _ _ _ (trim_within sec) Hs). }
  unfold parseAIResponse. destruct (length _ =? 0); [|exact H].
  apply Forall_app. split; [exact H|]. constructor; [|constructor].
  cbn [fallback TestCase.content]. apply includes_within.
  exists EmptyString, EmptyString. cbn. now rewrite append_empty_r.
Qed.

End ParserContent.

(** ** The markers are consumed by the split *)

Section ParserMarkers.

Import TestCaseGenerator.

Lemma span_append q x tail c r :
  Js.drop (span q x) x = String c r ->
  span q (x ++ tail) = span q x
  /\ Js.drop (span q x) (x ++ tail) = String c (r ++ tail).
Proof.
  induction x as [|a x IH]; [discriminate|].
  cbn [span append]. destruct (q a) eqn:E.
  - cbn [Js.drop]. intros H. destruct (IH H) as [I1 I2].
    rewrite I1. now split.
  - cbn [Js.drop]. intros H. injection H as -> ->. now split.
Qed.

Lemma digits_then_grows a m tail n :
  digits_then (String a EmptyString) m = Some n ->
  digits_then (String a EmptyString) (m ++ tail) = Some n.
Proof.
  unfold digits_then, Js.startsWith.
  destruct (0 <? span Js.is_digit m) eqn:E0; [|discriminate].
  destruct (String.prefix _ (Js.drop _ m)) eqn:E1; [|discriminate].
  cbn [andb]. intros H.
  destruct (prefix_split _ _ E1) as [r Er]. cbn [append] in Er.
  destruct (span_append Js.is_digit m tail a r Er) as [-> ->].
  rewrite E0. cbn [andb String.prefix].
  destruct (ascii_dec a a); [|contradiction].
  now destruct (r ++ tail)%string.
Qed.

Lemma match_marker_pos s n : match_marker s = Some n -> 0 < n.
Proof.
  unfold match_marker.
  destruct (if Js.startsWith "Test Case " s then _ else _).
  - intros [= <-]. lia.
  - destruct (Js.startsWith "Scenario:" s); [intros [= <-]; lia|].
    destruct (Js.startsWith "Feature:" s); [intros [= <-]; lia|discriminate].
Qed.

(** A marker matched at the start of a text is matched at the start of
    every extension of it. *)
Lemma match_marker_grows m tail :
  is_Some (match_marker m) -> is_Some (match_marker (m ++ tail)).
Proof.
  unfold match_marker.
  destruct (Js.startsWith "Test Case " m) eqn:E.
  - unfold Js.startsWith in E. destruct (prefix_split _ _ E) as [rest ->].
    rewrite append_assoc.
    assert (P : Js.startsWith "Test Case " ("Test Case " ++ rest ++ tail) = true)
      by apply prefix_append.
    rewrite P.
    change (Js.drop 10 ("Test Case " ++ rest ++ tail)) with (rest ++ tail)%string.
    change (Js.drop 10 ("Test Case " ++ rest)) with rest.
    destruct (digits_then ":" rest) as [n|] eqn:D.
    + rewrite (digits_then_grows _ _ tail _ D). eauto.
    + change (Js.startsWith "Scenario:" ("Test Case " ++ rest)) with false.
      change (Js.startsWith "Feature:" ("Test Case " ++ rest)) with false.
      intros [x Hx]. discriminate Hx.
  - destruct (if Js.startsWith "Test Case " (m ++ tail) then _ else _); [eauto|].
    unfold Js.startsWith.
    destruct (String.prefix "Scenario:" m) eqn:E1.
    + rewrite (prefix_append_r _ _ tail E1). eauto.
    + destruct (String.prefix "Feature:" m) eqn:E2.
      * rewrite (prefix_append_r _ _ tail E2).
        destruct (String.prefix "Scenario:" (m ++ tail)); eauto.
      * intros [x Hx]. discriminate Hx.
Qed.

Lemma has_marker_here s :
  is_Some (match_marker s) -> has_marker s = true.
Proof.
  intros H. destruct s; cbn [has_marker]; now rewrite (bool_decide_eq_true_2 _ H).
Qed.

Lemma has_marker_cons c s : has_marker s = true -> has_marker (String c s) = true.
Proof. intros H. cbn [has_marker]. rewrite H. apply orb_true_r. Qed.

Lemma has_marker_app a post :
  has_marker a = true -> has_marker (a ++ post) = true.
Proof.
  induction a as [|c a IH]; cbn [has_marker]; intros H;
    apply orb_true_iff in H as [H|H]; try discriminate H.
  - apply bool_decide_eq_true_1 in H.
    apply has_marker_here, (match_marker_grows (String c a) post H).
  - apply (has_marker_cons c (a ++ post)), IH, H.
Qed.

Lemma has_marker_within a b :
  Js.includes a b = true -> has_marker a = true -> has_marker b = true.
Proof.
  intros Hi Ha. apply includes_within in Hi as (pre & post & ->).
  induction pre as [|c pre IH].
  - apply (has_marker_app a post Ha).
  - apply (has_marker_cons c), IH.
Qed.

Lemma has_marker_free_within a b :
  Js.includes a b = true -> has_marker b = false -> has_marker a = false.
Proof.
  intros Hi Hb. destruct (has_marker a) eqn:E; [|reflexivity].
  now rewrite (has_marker_within a b Hi E) in Hb.
Qed.

(** No piece of the split holds a marker. *)
Lemma split_markers_clean s :
  forall skip, Forall (fun p => has_marker p = false) (split_markers_from skip s).
Proof.
  induction s as [|c s IH]; intros skip.
  - cbn. repeat constructor.
  - cbn [split_markers_from]. destruct skip as [|k]; [|apply IH].
    assert (D : (forall k, match_marker (String c s) <> Some (S k)) ->
                Forall (fun p => has_marker p = false)
                  match split_markers_from 0 s with
                  | [] => [String c EmptyString]
                  | piece :: rest => String c piece :: rest
                  end).
    { intros Hn. destruct (split_markers_within s 0) as [_ G].
      destruct (G eq_refl) as (p & rest & E & Hp).
      pose proof (IH 0) as F. rewrite E in *.
      inversion F as [|? ? Fp Fr]; subst. constructor; [|exact Fr].
      cbn [has_marker]. rewrite Fp, orb_false_r.
      apply bool_decide_eq_false_2. intros Hs.
      destruct (prefix_split _ _ Hp) as [post ->].
      apply (match_marker_grows (String c p) post) in Hs as [n Hs].
      cbn [append] in Hn. pose proof (match_marker_pos _ _ Hs) as Hpos.
      destruct n as [|n]; [lia|]. exact (Hn n Hs). }
    destruct (match_marker (String c s)) as [[|k]|] eqn:E.
    + apply D. intros k. discriminate.
    + constructor; [reflexivity | apply IH].
    + apply D. intros k. discriminate.
Qed.

Lemma sections_clean response :
  Forall (fun sec => has_marker (Js.trim sec) = false) (sections response).
Proof.
  unfold sections, split_markers.
  pose proof (split_markers_clean response 0) as F.
  apply List.Forall_forall. intros sec Hin.
  apply List.filter_In in Hin as [Hin _].
  apply (has_marker_free_within _ sec (trim_within sec)).
  exact (proj1 (List.Forall_forall _ _) F sec Hin).
Qed.

Lemma keyword_marker s :
  Js.includes "Scenario:" s = true \/ Js.includes "Feature:" s = true ->
  has_marker s = true.
Proof.
  assert (G : forall t, Js.startsWith "Scenario:" t = true
                        \/ Js.startsWith "Feature:" t = true ->
                        is_Some (match_marker t)).
  { intros t H. unfold match_marker.
    destruct (if Js.startsWith "Test Case " t then _ else _); [eauto|].
    destruct H as [-> | ->]; [eauto|].
    destruct (Js.startsWith "Scenario:" t); eauto. }
  induction s as [|c s IH]; cbn [Js.includes]; intros H.
  - destruct H as [H|H]; apply orb_true_iff in H as [H|H]; discriminate H.
  - destruct H as [H|H]; apply orb_true_iff in H as [H|H].
    + apply has_marker_here, G. now left.
    + apply has_marker_cons, IH. now left.
    + apply has_marker_here, G. now right.
    + apply has_marker_cons, IH. now right.
Qed.

(** X25: the markers are consumed.  In the content of every test case that
    [parseAIResponse] returns, the default one apart, no marker of the
    splitting expression matches anywhere: neither "Scenario:" nor
    "Feature:" occurs in it, nor "Test Case " followed by digits and a
    colon. *)
Theorem parsed_content_marker_free now iso now_end iso_end
    response sessionId format :
  Forall (fun tc =>
            tc = fallback now_end iso_end response sessionId format
            \/ (has_marker (TestCase.content tc) = false
                /\ Js.includes "Scenario:" (TestCase.content tc) = false
                /\ Js.includes "Feature:" (TestCase.content tc) = false))
         (parseAIResponse now iso now_end iso_end response sessionId format).
Proof.
  assert (H : Forall (fun tc =>
                has_marker (TestCase.content tc) = false
                /\ Js.includes "Scenario:" (TestCase.content tc) = false
                /\ Js.includes "Feature:" (TestCase.content tc) = false)
                (cases_from now iso sessionId format 0 (sections response))).
  { apply (cases_from_content
             (fun t => has_marker t = false
                       /\ Js.includes "Scenario:" t = false
                       /\ Js.includes "Feature:" t = false)).
    eapply Forall_impl; [apply sections_clean|]. cbn. intros sec Hs.
    split; [exact Hs|].
    split; [destruct (Js.includes "Scenario:" (Js.trim sec)) eqn:E
           |destruct (Js.includes "Feature:" (Js.trim sec)) eqn:E];
      try reflexivity.
    - now rewrite (keyword_marker _ (or_introl E)) in Hs.
    - now rewrite (keyword_marker _ (or_intror E)) in Hs. }
  assert (H' : Forall (fun tc =>
                 tc = fallback now_end iso_end response sessionId format
                 \/ (has_marker (TestCase.content tc) = false
                     /\ Js.includes "Scenario:" (TestCase.content tc) = false
                     /\ Js.includes "Feature:" (TestCase.content tc) = false))
                 (cases_from now iso sessionId format 0 (sections response))).
  { eapply Forall_impl; [exact H|]. cbn. intros tc Htc. now right. }
  unfold parseAIResponse. destruct (length _ =? 0); [|exact H'].
  apply Forall_app. split; [exact H'|]. constructor; [now left | constructor].
Qed.

End ParserMarkers.

(** ** Identifiers of the parsed test cases *)

Section ParserIds.

Import TestCaseGenerator.

Lemma uint_digits u : all_chars Js.is_digit (NilEmpty.string_of_uint u) = true.
Proof. induction u; cbn [NilEmpty.string_of_uint all_chars]; auto. Qed.

Lemma of_nat_inj i j : Js.of_nat i = Js.of_nat j -> i = j.
Proof.
  unfold Js.of_nat. intros H.
  assert (E : Some (Nat.to_uint i) = Some (Nat.to_uint j)).
  { rewrite <- !NilEmpty.usu. now rewrite H. }
  injection E as E. apply (f_equal Nat.of_uint) in E.
  now rewrite !DecimalNat.Unsigned.of_to in E.
Qed.

Lemma append_cancel_l p a b : (p ++ a = p ++ b)%string -> a = b.
Proof.
  induction p as [|c p IH]; cbn; [auto|]. intros [= H]. exact (IH H).
Qed.

(** Two texts made of digits, an underscore and a rest are equal only if
    the rests are. *)
Lemma digits_underscore d1 :
  forall d2 r1 r2,
    all_chars Js.is_digit d1 = true -> all_chars Js.is_digit d2 = true ->
    (d1 ++ "_" ++ r1 = d2 ++ "_" ++ r2)%string -> r1 = r2.
Proof.
  induction d1 as [|c d1 IH]; intros [|c' d2] r1 r2 H1 H2 E; cbn in E.
  - now injection E.
  - injection E as <- _. cbn in H2. discriminate H2.
  - injection E as -> _. cbn in H1. discriminate H1.
  - injection E as _ E. cbn [all_chars] in H1, H2.
    apply andb_true_iff in H1 as [_ H1], H2 as [_ H2].
    exact (IH d2 r1 r2 H1 H2 E).
Qed.

Lemma case_id_index sessionId t1 t2 i j :
  ("test_" ++ sessionId ++ "_" ++ Js.of_N t1 ++ "_" ++ Js.of_nat i
   = "test_" ++ sessionId ++ "_" ++ Js.of_N t2 ++ "_" ++ Js.of_nat j)%string ->
  i = j.
Proof.
  intros E. apply (append_cancel_l "test_"), append_cancel_l in E.
  apply (append_cancel_l "_") in E.
  apply of_nat_inj.
  exact (digits_underscore _ _ _ _ (uint_digits _) (uint_digits _) E).
Qed.

Lemma cases_from_ids now iso sessionId format index secs :
  Forall (fun tc => exists j,
            index <= j
            /\ TestCase.id tc
               = ("test_" ++ sessionId ++ "_" ++ Js.of_N (now j) ++ "_"
                  ++ Js.of_nat j)%string)
         (cases_from now iso sessionId format index secs).
Proof.
  revert index. induction secs as [|sec secs IH]; intros index; [constructor|].
  assert (T : Forall (fun tc => exists j,
                index <= j
                /\ TestCase.id tc
                   = ("test_" ++ sessionId ++ "_" ++ Js.of_N (now j) ++ "_"
                      ++ Js.of_nat j)%string)
                (cases_from now iso sessionId format (S index) secs)).
  { eapply Forall_impl; [apply (IH (S index))|]. cbn.
    intros tc (j & Hj & E). exists j. split; [lia | exact E]. }
  cbn [cases_from]. destruct (Js.truthy (Js.trim sec)); [|exact T].
  constructor; [|exact T]. exists index. split; [lia | reflexivity].
Qed.

Lemma cases_from_NoDup now iso sessionId format index secs :
  NoDup (List.map TestCase.id (cases_from now iso sessionId format index secs)).
Proof.
  revert index. induction secs as [|sec secs IH]; intros index;
    [constructor|].
  cbn [cases_from]. destruct (Js.truthy (Js.trim sec)); [|apply IH].
  cbn [List.map]. constructor; [|apply IH].
  intros Hin. apply list_elem_of_In, List.in_map_iff in Hin as (tc & E & Hin).
  pose proof (cases_from_ids now iso sessionId format (S index) secs) as F.
  destruct (proj1 (List.Forall_forall _ _) F tc Hin) as (j & Hj & Ej).
  rewrite Ej in E. cbn [section_case TestCase.id] in E.
  apply case_id_index in E. lia.
Qed.

(** X26: the test cases of one response have pairwise distinct ids,
    whatever the clock returns while they are built (the position of the
    section, which ends the id, tells them apart even when [Date.now()]
    does not advance). *)
Theorem parsed_ids_distinct now iso now_end iso_end response sessionId format :
  NoDup (List.map TestCase.id
           (parseAIResponse now iso now_end iso_end response sessionId format)).
Proof.
  unfold parseAIResponse.
  pose proof (cases_from_NoDup now iso sessionId format 0 (sections response))
    as H.
  destruct (cases_from now iso sessionId format 0 (sections response))
    as [|tc l]; [|exact H].
  cbn. constructor; [apply not_elem_of_nil | constructor].
Qed.

End ParserIds.

(** ** The name and the type of a download *)

Section DownloadMore.

Import FileDownloadService.
Import Js (cat).

Lemma length_append (a b : string) :
  String.length (a ++ b) = String.length a + String.length b.
Proof. induction a as [|c a IH]; cbn; [reflexivity | now rewrite IH]. Qed.

(** What a text ends in is decided by its end alone. *)
Lemma ends_with_append suffix a b :
  String.length suffix <= String.length b ->
  ends_with suffix (a ++ b) = ends_with suffix b.
Proof.
  intros H. induction a as [|c a IH]; [reflexivity|].
  cbn [append ends_with]. rewrite IH.
  destruct (String.eqb_spec suffix (String c (a ++ b))) as [E|_];
    [|reflexivity].
  apply (f_equal String.length) in E. cbn in E. rewrite length_append in E. lia.
Qed.

(** X27: the name and the type of a download agree.  For the test case
    that [downloadTestCase] passes to both, [getMimeType] answers
    [text/x-python] exactly when the name from [generateFilename] ends in
    [.py]; otherwise the type is [text/plain] and the name ends in
    [.feature] or [.txt]. *)
Theorem download_type_matches_name (tc : TestCase.t) :
  (getMimeType (TestCase.format tc) = "text/x-python"
   /\ ends_with ".py" (generateFilename tc) = true)
  \/ (getMimeType (TestCase.format tc) = "text/plain"
      /\ ends_with ".py" (generateFilename tc) = false
      /\ ends_with ".feature" (generateFilename tc)
         || ends_with ".txt" (generateFilename tc) = true).
Proof.
  unfold generateFilename, getMimeType.
  set (base := strip _).
  assert (P : forall pre ext suffix,
            String.length suffix <= String.length ext ->
            ends_with suffix (cat [pre; base; ext]) = ends_with suffix ext).
  { intros pre ext suffix H. rewrite !cat_cons. change (cat []) with EmptyString.
    rewrite append_empty_r, <- append_assoc. now apply ends_with_append. }
  assert (Q : forall ext suffix,
            String.length suffix <= String.length ext ->
            ends_with suffix (cat [base; ext]) = ends_with suffix ext).
  { intros ext suffix H. rewrite <- (P EmptyString ext suffix H).
    now rewrite !cat_cons. }
  destruct (String.eqb (TestCase.format tc) "pytest");
    [|destruct (String.eqb (TestCase.format tc) "selenium_bdd");
      [|destruct (String.eqb (TestCase.format tc) "gherkin")]].
  - left. rewrite (P "test_" ".py" ".py") by (cbn; lia). now split.
  - right. rewrite (Q ".feature" ".py"), (Q ".feature" ".feature") by (cbn; lia).
    now repeat split.
  - right. rewrite (Q ".feature" ".py"), (Q ".feature" ".feature") by (cbn; lia).
    now repeat split.
  - right. rewrite (Q ".txt" ".py"), (Q ".txt" ".txt") by (cbn; lia).
    split; [reflexivity|]. split; [reflexivity|]. apply orb_true_r.
Qed.

End DownloadMore.

(** ** Numbering of the interactions *)

Section AgentIds.

Import CaptureAgent.







End AgentIds.
